(** * Bestia vault: a shallow embedding of [vault.py] and its properties

    The vault of the Bestia simulator keeps a cash balance, a token supply and
    a basket of assets, and moves value between cash and assets by
    rebalancing and by liquidation.  This file embeds the class [Vault] of
    [vault.py] and proves the properties of its operations.

    Modelling choices.
    - A [Decimal] is a rational number ([Q]).  The arithmetic of [vault.py]
      runs in the default decimal context: every [+], [-], [*], [/], [abs]
      and [sum] rounds its exact result to 28 significant digits, ties to the
      even digit.  [round_sig] is that rounding, and [dadd], [dsub], [dmul],
      [ddiv], [dabs], [dsquare] and [sum] are the operations of the code.
      [x ** 2] is computed as the decimal module of CPython does: the product
      rounded to 31 digits, then to 28.  Building a [Decimal] from a string,
      an [int] or a [float], and the comparisons [==], [<], [<=]
      ([Qeq_bool], [Qltb], [Qle_bool]) are exact.
    - The exponent range of the context (exponents beyond 999999 in absolute
      value), infinities and NaN are not modelled.
    - A Python [dict] is an association list in insertion order: looking a key
      up finds its first binding, assigning to a present key replaces the
      value in place, assigning to an absent key appends a binding.
    - [time.time()] is an argument [now] of every method that reads the clock.
    - An exception leaves the vault as it was mutated so far: a method returns
      an [outcome], which carries the vault on both the normal and the
      exceptional exit.  Methods that only read return a [result].
    - [self.debug] is [False] throughout, and the [print] calls it guards are
      left out. *)

From Stdlib Require Import ZArith QArith Qabs Qround Qpower Qreduction.
From Stdlib Require Import String List Bool Arith Lia Lqa Setoid.
Import ListNotations.
Local Open Scope string_scope.
Local Open Scope list_scope.
Local Open Scope Q_scope.

(** ** Numbers *)

(** Python's [x < y] on decimals. *)
Definition Qltb (x y : Q) : bool := negb (Qle_bool y x).

(** [Decimal(len(l))]. *)
Definition Qlen {A : Type} (l : list A) : Q := inject_Z (Z.of_nat (length l)).

(** ** The decimal context *)

(** The number of decimal digits of [n >= 1], less one. *)
Fixpoint ilog10_fuel (fuel : nat) (n : Z) : Z :=
  match fuel with
  | O => 0%Z
  | S f => if (n <? 10)%Z then 0%Z else (1 + ilog10_fuel f (n / 10))%Z
  end.

Definition ilog10Z (n : Z) : Z := ilog10_fuel (Z.to_nat (Z.log2 n)) n.

(** The decimal exponent of [x > 0]: the [k] with [10 ^ k <= x < 10 ^ (k + 1)]. *)
Definition ilog10 (x : Q) : Z :=
  let k := (ilog10Z (Qnum x) - ilog10Z (Zpos (Qden x)))%Z in
  if Qle_bool (10 ^ k) x then k else (k - 1)%Z.

(** [k] is the decimal exponent of [x]. *)
Definition decade (x : Q) (k : Z) : Prop := 10 ^ k <= x /\ x < 10 ^ (k + 1).

(** The integer nearest to [y], the even one on a tie (ROUND_HALF_EVEN). *)
Definition half_even (y : Q) : Z :=
  let f := Qfloor y in
  match Qcompare (y - inject_Z f) (1 # 2) with
  | Lt => f
  | Gt => (f + 1)%Z
  | Eq => if Z.even f then f else (f + 1)%Z
  end.

(** [x > 0] rounded to [prec] significant digits. *)
Definition round_pos (prec : Z) (x : Q) : Q :=
  let e := (ilog10 x - (prec - 1))%Z in
  Qred (inject_Z (half_even (x / 10 ^ e)) * 10 ^ e).

(** [x] rounded to [prec] significant digits. *)
Definition round_sig (prec : Z) (x : Q) : Q :=
  match Qcompare x 0 with
  | Eq => 0
  | Gt => round_pos prec x
  | Lt => - round_pos prec (- x)
  end.

(** The operations of [Decimal] in the default context ([prec=28]). *)
Definition dadd (x y : Q) : Q := round_sig 28 (x + y).
Definition dsub (x y : Q) : Q := round_sig 28 (x - y).
Definition dmul (x y : Q) : Q := round_sig 28 (x * y).
Definition ddiv (x y : Q) : Q := round_sig 28 (x / y).
Definition dabs (x : Q) : Q := round_sig 28 (Qabs x).

(** [x ** 2]: the power with an integer exponent is computed with three
    more digits, and its result is then rounded to the context. *)
Definition dsquare (x : Q) : Q := round_sig 28 (round_sig 31 (x * x)).

(** Python's [sum(l)]: a left fold of [+] that starts from the integer 0. *)
Definition sum (l : list Q) : Q := fold_left dadd l 0.

(** [Decimal.sqrt] of [x > 0]: the square root rounded to 28 significant
    digits, ties to even. *)
Definition sqrt_pos (x : Q) : Q :=
  let e := (ilog10 x / 2 - 27)%Z in
  let y := x / 10 ^ (2 * e) in
  let s := Z.sqrt (Qfloor y) in
  let half := inject_Z s + (1 # 2) in
  let m :=
    match Qcompare y (half * half) with
    | Lt => s
    | Gt => (s + 1)%Z
    | Eq => if Z.even s then s else (s + 1)%Z
    end in
  Qred (inject_Z m * 10 ^ e).

Definition decimal_sqrt (x : Q) : Q :=
  match Qcompare x 0 with
  | Gt => sqrt_pos x
  | _ => 0
  end.

(** ** Dictionaries *)

Section Dict.
Context {K V : Type}.
Variable eqb : K -> K -> bool.

(** [d.get(k)], [None] when [k] is absent. *)
Fixpoint dict_get (d : list (K * V)) (k : K) : option V :=
  match d with
  | [] => None
  | (k', v) :: d' => if eqb k' k then Some v else dict_get d' k
  end.

(** [d.get(k, default)]. *)
Definition dict_get_default (d : list (K * V)) (k : K) (default : V) : V :=
  match dict_get d k with
  | Some v => v
  | None => default
  end.

(** [k in d]. *)
Definition dict_mem (d : list (K * V)) (k : K) : bool :=
  match dict_get d k with
  | Some _ => true
  | None => false
  end.

(** [d[k] = v]. *)
Fixpoint dict_set (d : list (K * V)) (k : K) (v : V) : list (K * V) :=
  match d with
  | [] => [(k, v)]
  | (k', v') :: d' =>
      if eqb k' k then (k', v) :: d' else (k', v') :: dict_set d' k v
  end.

(** [list(d)], the keys in insertion order. *)
Definition dict_keys (d : list (K * V)) : list K := map fst d.
End Dict.

(** Dictionaries keyed by asset name, and by timestamp. *)
Notation "'sget'" := (dict_get String.eqb).
Notation "'sget_default'" := (dict_get_default String.eqb).
Notation "'smem'" := (dict_mem String.eqb).
Notation "'sset'" := (dict_set String.eqb).
Notation "'tset'" := (dict_set Qeq_bool).
Notation "'tget'" := (dict_get Qeq_bool).

(** ** Exceptions and results *)

Inductive exn : Type :=
| ValueError (msg : string)
| KeyError (key : string)
| TypeError (msg : string)
| OverflowError (msg : string).

Inductive result (A : Type) : Type :=
| Ok (a : A)
| Err (e : exn).
Arguments Ok {A} a.
Arguments Err {A} e.

Definition bind {A B : Type} (r : result A) (f : A -> result B) : result B :=
  match r with
  | Ok a => f a
  | Err e => Err e
  end.

Notation "x <- r ;; k" := (bind r (fun x => k))
  (at level 61, r at next level, right associativity).

(** The names the specification gives to the failures of the vault. *)
Definition InsufficientCash : exn := ValueError "Not enough cash".

(** ** The vault *)

Record PriceObservation : Type := mkPriceObservation {
  timestamp : Q;
  price : Q
}.

(** [deque(maxlen=n).append(x)]: the oldest entry is dropped on overflow. *)
Definition deque_append {A : Type} (maxlen : nat) (d : list A) (x : A) : list A :=
  let d' := d ++ [x] in
  if Nat.ltb maxlen (length d') then tl d' else d'.

Record Vault : Type := mkVault {
  name : string;
  cash : Q;
  optimal_cash_threshold : Q;
  liquidation_trigger_threshold : Q;
  token_supply : Q;
  assets : list (string * Q);
  asset_liquidity_value : list (string * Q);
  prices : list (string * Q);
  window : Q;
  deposit_requests : list (Q * Q);
  withdrawal_requests : list (Q * Q);
  price_volatility : list (string * list PriceObservation);
  thresholds : list (string * Q)
}.

(** [Vault(name, optimal_cash_threshold, liquidation_trigger_threshold, window)]. *)
Definition new_vault (nm : string) (opt trig win : Q) : Vault :=
  mkVault nm 0 opt trig 0 [] [] [] win [] [] [] [].

Definition upd_cash (v : Vault) (x : Q) : Vault :=
  mkVault (name v) x (optimal_cash_threshold v) (liquidation_trigger_threshold v)
    (token_supply v) (assets v) (asset_liquidity_value v) (prices v) (window v)
    (deposit_requests v) (withdrawal_requests v) (price_volatility v) (thresholds v).

Definition upd_token_supply (v : Vault) (x : Q) : Vault :=
  mkVault (name v) (cash v) (optimal_cash_threshold v) (liquidation_trigger_threshold v)
    x (assets v) (asset_liquidity_value v) (prices v) (window v)
    (deposit_requests v) (withdrawal_requests v) (price_volatility v) (thresholds v).

Definition upd_assets (v : Vault) (x : list (string * Q)) : Vault :=
  mkVault (name v) (cash v) (optimal_cash_threshold v) (liquidation_trigger_threshold v)
    (token_supply v) x (asset_liquidity_value v) (prices v) (window v)
    (deposit_requests v) (withdrawal_requests v) (price_volatility v) (thresholds v).

Definition upd_asset_liquidity_value (v : Vault) (x : list (string * Q)) : Vault :=
  mkVault (name v) (cash v) (optimal_cash_threshold v) (liquidation_trigger_threshold v)
    (token_supply v) (assets v) x (prices v) (window v)
    (deposit_requests v) (withdrawal_requests v) (price_volatility v) (thresholds v).

Definition upd_prices (v : Vault) (x : list (string * Q)) : Vault :=
  mkVault (name v) (cash v) (optimal_cash_threshold v) (liquidation_trigger_threshold v)
    (token_supply v) (assets v) (asset_liquidity_value v) x (window v)
    (deposit_requests v) (withdrawal_requests v) (price_volatility v) (thresholds v).

Definition upd_deposit_requests (v : Vault) (x : list (Q * Q)) : Vault :=
  mkVault (name v) (cash v) (optimal_cash_threshold v) (liquidation_trigger_threshold v)
    (token_supply v) (assets v) (asset_liquidity_value v) (prices v) (window v)
    x (withdrawal_requests v) (price_volatility v) (thresholds v).

Definition upd_withdrawal_requests (v : Vault) (x : list (Q * Q)) : Vault :=
  mkVault (name v) (cash v) (optimal_cash_threshold v) (liquidation_trigger_threshold v)
    (token_supply v) (assets v) (asset_liquidity_value v) (prices v) (window v)
    (deposit_requests v) x (price_volatility v) (thresholds v).

Definition upd_price_volatility (v : Vault) (x : list (string * list PriceObservation)) : Vault :=
  mkVault (name v) (cash v) (optimal_cash_threshold v) (liquidation_trigger_threshold v)
    (token_supply v) (assets v) (asset_liquidity_value v) (prices v) (window v)
    (deposit_requests v) (withdrawal_requests v) x (thresholds v).

Definition upd_thresholds (v : Vault) (x : list (string * Q)) : Vault :=
  mkVault (name v) (cash v) (optimal_cash_threshold v) (liquidation_trigger_threshold v)
    (token_supply v) (assets v) (asset_liquidity_value v) (prices v) (window v)
    (deposit_requests v) (withdrawal_requests v) (price_volatility v) x.

(** The exit of a method that mutates the vault. *)
Inductive outcome (A : Type) : Type :=
| Return (a : A) (v : Vault)
| Raise (e : exn) (v : Vault).
Arguments Return {A} a v.
Arguments Raise {A} e v.

(** The vault a method leaves behind, on either exit. *)
Definition vault_after {A : Type} (o : outcome A) : Vault :=
  match o with
  | Return _ v => v
  | Raise _ v => v
  end.

(** ** Minting and redeeming *)
Definition mint (now : Q) (amount : Q) (v : Vault) : outcome Q :=
  let v := upd_cash v (dadd (cash v) amount) in
  let v := upd_token_supply v (dadd (token_supply v) amount) in
  let v := upd_deposit_requests v (tset (deposit_requests v) now amount) in
  Return amount v.

Definition redeem (now : Q) (amount : Q) (v : Vault) : outcome Q :=
  if Qltb (cash v) amount then Raise (ValueError "Not enough cash") v
  else
    let v := upd_cash v (dsub (cash v) amount) in
    let v := upd_token_supply v (dsub (token_supply v) amount) in
    let v := upd_withdrawal_requests v (tset (withdrawal_requests v) now amount) in
    Return amount v.

(** ** The asset registry *)

Definition add_supported_asset (now : Q) (nm : string)
    (liquidity_value price threshold : Q) (v : Vault) : outcome unit :=
  if smem (assets v) nm then Raise (ValueError "Name already present") v
  else if Qltb 100 threshold then Raise (ValueError "Invalid threshold") v
  else
    let v := upd_assets v (sset (assets v) nm 0) in
    let v := upd_asset_liquidity_value v (sset (asset_liquidity_value v) nm liquidity_value) in
    let v := upd_price_volatility v
               (sset (price_volatility v) nm
                  (deque_append 1000 [] (mkPriceObservation now price))) in
    let v := upd_prices v (sset (prices v) nm price) in
    let v := upd_thresholds v (sset (thresholds v) nm threshold) in
    Return tt v.

Definition change_asset_threshold (asset : string) (threshold : Q) (v : Vault) : outcome unit :=
  if negb (smem (assets v) asset) then Raise (ValueError "Asset not present") v
  else if Qltb 100 threshold then Raise (ValueError "Invalid threshold") v
  else Return tt (upd_thresholds v (sset (thresholds v) asset threshold)).

Definition set_asset_price (now : Q) (asset : string) (price : Q) (v : Vault) : outcome unit :=
  let v := upd_price_volatility v
             (sset (price_volatility v) asset
                (deque_append 1000 [] (mkPriceObservation now price))) in
  let v := upd_prices v (sset (prices v) asset price) in
  Return tt v.

Definition set_asset_liquidity_value (asset : string) (value : Q) (v : Vault) : outcome unit :=
  Return tt (upd_asset_liquidity_value v (sset (asset_liquidity_value v) asset value)).

(** ** Values *)

Definition get_asset_value (v : Vault) (asset : string) : result Q :=
  match sget (assets v) asset with
  | None => Err (ValueError "Invalid asset")
  | Some holdings =>
      match sget (prices v) asset with
      | None => Err (ValueError "Invalid price")
      | Some p => Ok (dmul p holdings)
      end
  end.

(** The loop of [get_assets_value] over the keys of [self.assets]. *)
Fixpoint assets_value_loop (v : Vault) (todo : list string) (total : Q) : result Q :=
  match todo with
  | [] => Ok total
  | key :: rest =>
      x <- get_asset_value v key ;;
      assets_value_loop v rest (dadd total x)
  end.

Definition get_assets_value (v : Vault) : result Q :=
  assets_value_loop v (dict_keys (assets v)) 0.

Definition get_total_value (v : Vault) : result Q :=
  a <- get_assets_value v ;;
  Ok (dadd a (cash v)).

Definition get_current_cash_threshold (v : Vault) : result Q :=
  tv <- get_total_value v ;;
  if Qeq_bool tv 0 then Ok 0
  else
    tv' <- get_total_value v ;;
    Ok (ddiv (cash v) tv').

Definition is_liquidable (v : Vault) : result bool :=
  r <- get_current_cash_threshold v ;;
  Ok (Qltb r (liquidation_trigger_threshold v)).

Definition get_current_asset_threshold (v : Vault) (asset : string) : result Q :=
  match sget (thresholds v) asset with
  | None => Err (ValueError "Invalid asset")
  | Some threshold =>
      av <- get_assets_value v ;;
      if Qeq_bool av 0 then Ok 0
      else
        x <- get_asset_value v asset ;;
        if Qeq_bool x 0 then Ok 0
        else
          x' <- get_asset_value v asset ;;
          av' <- get_assets_value v ;;
          let asset_threshold := ddiv x' av' in
          Ok (dabs (dsub threshold asset_threshold))
  end.

(** ** Flow rates *)

(** The loop of [get_inflow] and [get_outflow] over the items of a flow log. *)
Fixpoint flow_loop (min_time : Q) (items : list (Q * Q)) (total : Q) : Q :=
  match items with
  | [] => total
  | (key, value) :: rest =>
      if Qltb key min_time then flow_loop min_time rest total
      else flow_loop min_time rest (dadd total value)
  end.

Definition get_inflow (now : Q) (v : Vault) : result Q :=
  let total := 0 in
  let min_time := dsub now (window v) in
  if Qeq_bool (window v) 0 || Qltb min_time 0 then Err (ValueError "Invalid time window")
  else Ok (ddiv (flow_loop min_time (deposit_requests v) total) (window v)).

Definition get_outflow (now : Q) (v : Vault) : result Q :=
  let total := 0 in
  let min_time := dsub now (window v) in
  if Qeq_bool (window v) 0 || Qltb min_time 0 then Err (ValueError "Invalid time window")
  else Ok (ddiv (flow_loop min_time (withdrawal_requests v) total) (window v)).

(** ** Volatility and swing pricing *)

(** The loop of [get_price_volatility] over the observations of an asset,
    appending the prices inside the window to [relevant_prices]. *)
Fixpoint relevant_prices_loop (min_time : Q) (items : list PriceObservation)
    (relevant_prices : list Q) : list Q :=
  match items with
  | [] => relevant_prices
  | item :: rest =>
      if Qle_bool min_time (timestamp item)
      then relevant_prices_loop min_time rest (relevant_prices ++ [price item])
      else relevant_prices_loop min_time rest relevant_prices
  end.

Section Numeric.
(** [Decimal.sqrt], and [fun y => Decimal(exp(float(y)))], which goes through
    the binary floating point of the machine: both are parameters of the
    methods that call them.  [dexp y] is [None] when [math.exp] raises
    [OverflowError]. *)
Variable dsqrt : Q -> Q.
Variable dexp : Q -> option Q.

Definition get_price_volatility (now : Q) (v : Vault) (asset : string) : result Q :=
  let current_time := now in
  let min_time := dsub current_time (window v) in
  match sget (price_volatility v) asset with
  | None => Err (KeyError asset)
  | Some observations =>
      let relevant_prices := relevant_prices_loop min_time observations [] in
      if Nat.ltb (length relevant_prices) 2 then Ok 0
      else
        let mean_price := ddiv (sum relevant_prices) (Qlen relevant_prices) in
        let variance :=
          ddiv (sum (map (fun price => dsquare (dsub price mean_price)) relevant_prices))
               (Qlen relevant_prices) in
        Ok (dsqrt variance)
  end.

(** [swing_pricing(asset, inflow)].  The clock is read once by the flow
    getter and once by [get_price_volatility].  The exponential is not
    negative, so that the divisor of [f_x] is not 0. *)
Definition swing_pricing (now_flow now_vol : Q) (v : Vault) (asset : string)
    (inflow : bool) : result Q :=
  flow <- (if inflow then get_inflow now_flow v else get_outflow now_flow v) ;;
  price_volatility <- get_price_volatility now_vol v asset ;;
  threshold <- get_current_asset_threshold v asset ;;
  let a := 1 # 100 in
  let b := 5 # 100 in
  let c := 1 # 10 in
  let d := 2 # 100 in
  let x := dmul flow (dadd 1 (dmul b price_volatility)) in
  match dexp (- dmul c (dsub x threshold)) with
  | None => Err (OverflowError "math range error")
  | Some e =>
      let f_x := ddiv 1 (dadd 1 e) in
      let final_fee := dmul (dmul a x) (dadd 1 (dmul d f_x)) in
      let capped := if Qltb final_fee 1 then final_fee else 1 in
      let final_fee_normalized := if Qltb 0 capped then capped else 0 in
      Ok final_fee_normalized
  end.
End Numeric.

(** ** Rebalancing *)

(** The loop of [rebalance] over the keys of [self.assets]. *)
Fixpoint rebalance_loop (excess_cash : Q) (todo : list string) (v : Vault) : outcome unit :=
  match todo with
  | [] => Return tt v
  | asset :: rest =>
      if Qeq_bool (sget_default (prices v) asset 0) 0
      then Raise (ValueError (String.append "Invalid asset price for " asset)) v
      else
        let cash_for_asset := ddiv excess_cash (Qlen (assets v)) in
        match sget (prices v) asset with
        | None => Raise (KeyError asset) v
        | Some price_per_unit =>
            let quantity_to_buy := ddiv cash_for_asset price_per_unit in
            match sget (assets v) asset with
            | None => Raise (KeyError asset) v
            | Some holdings =>
                rebalance_loop excess_cash rest
                  (upd_assets v (sset (assets v) asset (dadd holdings quantity_to_buy)))
            end
        end
  end.

Definition rebalance (v : Vault) : outcome unit :=
  match get_current_cash_threshold v with
  | Err e => Raise e v
  | Ok current_cash_ratio =>
      if Qle_bool current_cash_ratio (optimal_cash_threshold v) then Return tt v
      else
        match get_total_value v with
        | Err e => Raise e v
        | Ok total_value =>
            let desired_cash := dmul (optimal_cash_threshold v) total_value in
            let excess_cash := dsub (cash v) desired_cash in
            match rebalance_loop excess_cash (dict_keys (assets v)) v with
            | Raise e v' => Raise e v'
            | Return _ v' => Return tt (upd_cash v' (dsub (cash v') excess_cash))
            end
        end
  end.

(** ** Liquidation *)

(** [sorted(d.items(), key=lambda item: item[1], reverse=False)]: a stable
    sort, ascending in the value. *)
Fixpoint insert_by_value (x : string * Q) (l : list (string * Q)) : list (string * Q) :=
  match l with
  | [] => [x]
  | y :: l' => if Qltb (snd y) (snd x) then y :: insert_by_value x l' else x :: l
  end.

Definition sorted_by_value (items : list (string * Q)) : list (string * Q) :=
  fold_right insert_by_value [] items.

(** User-driven liquidation.  The call [self.swing_pricing(asset, amount, False)]
    passes three arguments to a method that takes two, [asset] and [inflow]:
    Python raises [TypeError] when it binds them, so the lines after the call
    are never run; the body has no [return] statement either.  The text of
    the error is the one of CPython 3.10 and later; earlier versions leave
    out the name of the class. *)
Definition liquidate_asset (asset : string) (amount : Q) (v : Vault) : outcome unit :=
  match sget (assets v) asset with
  | None => Raise (ValueError "Asset not supported") v
  | Some holdings =>
      match sget (prices v) asset with
      | None => Raise (ValueError "Invalid price") v
      | Some p =>
          if Qltb holdings amount then Raise (ValueError "Not enough asset amount") v
          else
            let asset_value := dmul amount p in
            if Qle_bool asset_value (cash v)
            then Raise (ValueError "No need to liquidate asset, enough cash available") v
            else Raise (TypeError
                   "Vault.swing_pricing() takes 3 positional arguments but 4 were given") v
      end
  end.

(** The loop of [liquidate] over the sorted assets. *)
Fixpoint liquidate_loop (required_cash desired_cash : Q)
    (sorted_assets : list (string * Q)) (v : Vault) : outcome unit :=
  match sorted_assets with
  | [] => Return tt v
  | (asset, _) :: rest =>
      if Qle_bool required_cash (cash v) then Return tt v
      else
        let current_holdings := sget_default (assets v) asset 0 in
        if Qeq_bool current_holdings 0
        then liquidate_loop required_cash desired_cash rest v
        else
          let asset_price := sget_default (prices v) asset 0 in
          if Qeq_bool asset_price 0
          then Raise (ValueError (String.append "Invalid asset price for " asset)) v
          else
            let max_cash_obtainable := dmul current_holdings asset_price in
            let still_required_cash := dsub desired_cash (cash v) in
            if Qltb (dadd max_cash_obtainable (cash v)) desired_cash
            then
              let v := upd_cash v (dadd (cash v) max_cash_obtainable) in
              let v := upd_assets v (sset (assets v) asset 0) in
              liquidate_loop required_cash desired_cash rest v
            else
              let quantity_to_sell := ddiv still_required_cash asset_price in
              match sget (assets v) asset with
              | None => Raise (KeyError asset) v
              | Some holdings =>
                  let v := upd_assets v (sset (assets v) asset (dsub holdings quantity_to_sell)) in
                  let actual_cash_raised := dmul quantity_to_sell asset_price in
                  let v := upd_cash v (dadd (cash v) actual_cash_raised) in
                  liquidate_loop required_cash desired_cash rest v
              end
  end.

Definition liquidate (v : Vault) : outcome unit :=
  match is_liquidable v with
  | Err e => Raise e v
  | Ok false => Return tt v
  | Ok true =>
      match get_total_value v with
      | Err e => Raise e v
      | Ok total_value =>
          let desired_cash := dmul (optimal_cash_threshold v) total_value in
          let required_cash := dsub desired_cash (cash v) in
          let sorted_assets := sorted_by_value (asset_liquidity_value v) in
          match liquidate_loop required_cash desired_cash sorted_assets v with
          | Raise e v' => Raise e v'
          | Return _ v' =>
              match get_total_value v' with
              | Err e => Raise e v'
              | Ok _ => Return tt v'
              end
          end
      end
  end.

(** ** The scenario of the specification *)

Definition scenario0 : Vault :=
  vault_after (add_supported_asset 1000 "X" 1 1 (1 # 2)
                 (new_vault "Base" (2 # 10) (5 # 100) 100)).
Definition scenario1 : Vault := vault_after (mint 1001 10000 scenario0).
Definition scenario2 : Vault := vault_after (rebalance scenario1).
Definition scenario3 : Vault := vault_after (redeem 1002 1800 scenario2).
Definition scenario4 : Vault := vault_after (liquidate scenario3).

(** ** Notions of the specification *)

(** A number with at most 28 significant digits: every number that the
    arithmetic of the vault returns is one. *)
Definition rounded (x : Q) : Prop := round_sig 28 x == x.

(** cashRatio: cash over totalValue, and 0 when totalValue is 0. *)
Definition cash_ratio (v : Vault) (total_value : Q) : Q :=
  if Qeq_bool total_value 0 then 0 else ddiv (cash v) total_value.

(** The specification of [is_liquidable]: true iff totalValue > 0 and
    cashRatio < liquidationTriggerThreshold. *)
Definition is_liquidable_guarded (v : Vault) : Prop :=
  forall tv, get_total_value v = Ok tv ->
    (is_liquidable v = Ok true <->
     0 < tv /\ cash_ratio v tv < liquidation_trigger_threshold v).


(** A vault with 10^30 in cash. *)
Definition large_vault : Vault :=
  vault_after (mint 1001 (10 ^ 30) (new_vault "Base" (2 # 10) (5 # 100) 100)).




(** The prices of the observations with timestamp >= [min_time]. *)
Definition windowed_prices (min_time : Q) (history : list PriceObservation) : list Q :=
  map price (filter (fun o => Qle_bool min_time (timestamp o)) history).









(** Two vaults whose asset X has the same three prices in the window, in
    two orders. *)
Definition ordered_vault : Vault :=
  upd_price_volatility scenario0
    [("X", [mkPriceObservation 950 3411.5; mkPriceObservation 960 64000;
            mkPriceObservation 970 1.1])].

Definition reordered_vault : Vault :=
  upd_price_volatility scenario0
    [("X", [mkPriceObservation 950 3411.5; mkPriceObservation 960 1.1;
            mkPriceObservation 970 64000])].

(** ** The data model and the effect of a liquidation *)

(** No registered asset has negative holdings; no price is negative; every
    price is positive. *)
Definition holdings_nonneg (v : Vault) : Prop :=
  forall a h, sget (assets v) a = Some h -> 0 <= h.

Definition prices_nonneg (v : Vault) : Prop :=
  forall a p, sget (prices v) a = Some p -> 0 <= p.





(** Three assets, bought by a rebalance; then the first is priced below
    zero, the second at zero. *)
Definition mispriced0 : Vault :=
  vault_after (add_supported_asset 1000 "Z" 3 1 (3 # 10)
    (vault_after (add_supported_asset 1000 "Y" 2 1 (5 # 10)
      (vault_after (add_supported_asset 1000 "X" 1 1 (2 # 10)
        (new_vault "Base" (2 # 10) (5 # 100) 100)))))).
Definition mispriced1 : Vault :=
  vault_after (redeem 1003 29 (vault_after (rebalance (vault_after (mint 1001 150 mispriced0))))).
Definition mispriced2 : Vault :=
  vault_after (set_asset_price 1005 "Y" 0
    (vault_after (set_asset_price 1004 "X" (- (1 # 2)) mispriced1))).

(** ** Calls and reachable vaults *)

(** The calls of the interface that can change the vault. *)
Inductive call : Type :=
| Mint (now amount : Q)
| Redeem (now amount : Q)
| AddSupportedAsset (now : Q) (nm : string) (liquidity_value price threshold : Q)
| ChangeAssetThreshold (asset : string) (threshold : Q)
| SetAssetPrice (now : Q) (asset : string) (price : Q)
| SetAssetLiquidityValue (asset : string) (value : Q)
| Rebalance
| Liquidate
| LiquidateAsset (asset : string) (amount : Q).

(** The vault after a call, whether it returned or raised. *)
Definition run (c : call) (v : Vault) : Vault :=
  match c with
  | Mint now amount => vault_after (mint now amount v)
  | Redeem now amount => vault_after (redeem now amount v)
  | AddSupportedAsset now nm lv p th => vault_after (add_supported_asset now nm lv p th v)
  | ChangeAssetThreshold asset th => vault_after (change_asset_threshold asset th v)
  | SetAssetPrice now asset p => vault_after (set_asset_price now asset p v)
  | SetAssetLiquidityValue asset x => vault_after (set_asset_liquidity_value asset x v)
  | Rebalance => vault_after (rebalance v)
  | Liquidate => vault_after (liquidate v)
  | LiquidateAsset asset amount => vault_after (liquidate_asset asset amount v)
  end.

(** The vaults reached from [v0] by calls that satisfy [allowed]. *)
Inductive reachable (allowed : call -> Prop) (v0 : Vault) : Vault -> Prop :=
| reachable_init : reachable allowed v0 v0
| reachable_step (v : Vault) (c : call) :
    reachable allowed v0 v -> allowed c -> reachable allowed v0 (run c v).

Definition any_call (c : call) : Prop := True.






Definition run_all (calls : list call) (v : Vault) : Vault :=
  fold_left (fun v c => run c v) calls v.

(** The calls of the scenario, up to the redeem. *)
Definition scenario_calls : list call :=
  [ AddSupportedAsset 1000 "X" 1 1 (1 # 2);
    Mint 1001 10000;
    Rebalance;
    Redeem 1002 1800 ].





Definition same_registry (v v' : Vault) : Prop :=
  prices v' = prices v /\
  forall a, sget (assets v') a = None <-> sget (assets v) a = None.

(** ** Further notions *)

(** Two vaults with the same registered names, in the same order, and the
    same prices. *)
Definition same_keys (v v' : Vault) : Prop :=
  dict_keys (assets v') = dict_keys (assets v) /\ prices v' = prices v.

(** Everything but cash and holdings is the same in [v] and [v']. *)
Definition same_books (v v' : Vault) : Prop :=
  name v' = name v /\
  optimal_cash_threshold v' = optimal_cash_threshold v /\
  liquidation_trigger_threshold v' = liquidation_trigger_threshold v /\
  token_supply v' = token_supply v /\
  asset_liquidity_value v' = asset_liquidity_value v /\
  prices v' = prices v /\
  window v' = window v /\
  deposit_requests v' = deposit_requests v /\
  withdrawal_requests v' = withdrawal_requests v /\
  price_volatility v' = price_volatility v /\
  thresholds v' = thresholds v.

(** What a step of the two loops does: it assigns the holdings of a
    registered asset, and cash. *)
Definition trades (v v' : Vault) : Prop :=
  same_registry v v' /\ same_keys v v' /\ same_books v v'.


(** A vault with cash and no registered asset. *)
Definition cash_only : Vault :=
  vault_after (mint 1001 10000 (new_vault "Base" (2 # 10) (5 # 100) 100)).

(** The cash ratio of the scenario after the redeem: 200 / 8200 to 28
    digits. *)
Definition scenario3_ratio : Q :=
  Eval vm_compute in
    match get_current_cash_threshold scenario3 with
    | Ok r => r
    | Err _ => 0
    end.

(** ** The effect of a rebalance *)


(** Two assets and 100 in cash; the second asset is then priced at 0. *)
Definition zero_priced : Vault :=
  vault_after (set_asset_price 1002 "Y" 0
    (vault_after (mint 1001 100
      (vault_after (add_supported_asset 1000 "Y" 2 1 (5 # 10)
        (vault_after (add_supported_asset 1000 "X" 1 1 (5 # 10)
          (new_vault "Base" (2 # 10) (5 # 100) 100)))))))).

(** Three assets and 100 in cash; the third asset is then priced at 0. *)
Definition zero_priced3 : Vault :=
  vault_after (set_asset_price 1002 "Z" 0
    (vault_after (mint 1001 100
      (vault_after (add_supported_asset 1000 "Z" 3 1 (5 # 10)
        (vault_after (add_supported_asset 1000 "Y" 2 1 (5 # 10)
          (vault_after (add_supported_asset 1000 "X" 1 1 (5 # 10)
            (new_vault "Base" (2 # 10) (5 # 100) 100)))))))))).

(** Every price history holds exactly one observation. *)
Definition single_observations (v : Vault) : Prop :=
  forall a h, sget (price_volatility v) a = Some h -> length h = 1%nat.

(** A stand-in for the exponential in the examples: the series up to the
    second order. *)
Definition exp_order2 (y : Q) : option Q := Some (1 + y + y * y / 2).

(** An exponential that overflows on every argument. *)
Definition exp_overflow (y : Q) : option Q := None.

(** The swing fee of the scenario after the redeem, for asset X on the
    outflow side. *)
Definition scenario3_fee : Q :=
  Eval vm_compute in
    match swing_pricing decimal_sqrt exp_order2 1003 1003 scenario3 "X" false with
    | Ok fee => fee
    | Err _ => 0
    end.


(** ** The users of the simulation *)

(** [User] of [simulation.py].  The amount that [generate_random_decimal]
    draws, and the action that [random.choice] picks, are arguments. *)
Record User : Type := mkUser {
  user_name : string;
  user_cash : Q;
  usdb : Q
}.

Inductive Action : Type :=
| NOTHING
| MINT
| REDEEM.

(** The exit of a method of [User]: the user and the vault it leaves. *)
Inductive sim_outcome : Type :=
| Done (u : User) (v : Vault)
| Failed (e : exn) (u : User) (v : Vault).

Definition user_nothing (u : User) (v : Vault) : sim_outcome := Done u v.

Definition user_mint (now amount : Q) (u : User) (v : Vault) : sim_outcome :=
  let u := mkUser (user_name u) (dsub (user_cash u) amount) (usdb u) in
  match mint now amount v with
  | Return minted v' => Done (mkUser (user_name u) (user_cash u) (dadd (usdb u) minted)) v'
  | Raise e v' => Failed e u v'
  end.

(** The bare [except] catches whatever [Vault.redeem] raises. *)
Definition user_redeem (now amount : Q) (u : User) (v : Vault) : sim_outcome :=
  match redeem now amount v with
  | Return redeemed v' =>
      let u := mkUser (user_name u) (user_cash u) (dsub (usdb u) redeemed) in
      Done (mkUser (user_name u) (dadd (user_cash u) amount) (usdb u)) v'
  | Raise _ v' => Done u v'
  end.

(** [getattr(user, action.name.lower())()]. *)
Definition act (a : Action) (now amount : Q) (u : User) (v : Vault) : sim_outcome :=
  match a with
  | NOTHING => user_nothing u v
  | MINT => user_mint now amount u v
  | REDEEM => user_redeem now amount u v
  end.

(** * Properties *)

(** ** Comparisons *)

Lemma Qltb_lt (x y : Q) : Qltb x y = true <-> x < y.
Proof.
  unfold Qltb. rewrite negb_true_iff.
  split; intro H.
  - apply Qnot_le_lt. intro Hle. apply Qle_bool_iff in Hle. congruence.
  - destruct (Qle_bool y x) eqn:E; [|reflexivity].
    apply Qle_bool_iff in E. exfalso. exact (Qlt_not_le _ _ H E).
Qed.

Lemma Qltb_ge (x y : Q) : Qltb x y = false <-> y <= x.
Proof.
  unfold Qltb. rewrite negb_false_iff. apply Qle_bool_iff.
Qed.

Lemma Qle_bool_gt (x y : Q) : Qle_bool x y = false <-> y < x.
Proof.
  rewrite <- (Qltb_lt y x). unfold Qltb.
  destruct (Qle_bool x y); simpl; split; congruence.
Qed.

Lemma Qeq_bool_false (x y : Q) : Qeq_bool x y = false <-> ~ x == y.
Proof.
  split.
  - apply Qeq_bool_neq.
  - intro H. destruct (Qeq_bool x y) eqn:E; [|reflexivity].
    apply Qeq_bool_iff in E. contradiction.
Qed.

(** ** Dictionaries *)

Section DictFacts.
Context {K V : Type}.
Variable eqb : K -> K -> bool.
Variable R : K -> K -> Prop.
Hypothesis R_equiv : Equivalence R.
Hypothesis eqb_R : forall a b, eqb a b = true <-> R a b.

Lemma eqb_R_false a b : eqb a b = false <-> ~ R a b.
Proof.
  rewrite <- eqb_R. destruct (eqb a b); split; congruence.
Qed.

Lemma dict_get_set_same (d : list (K * V)) k v :
  dict_get eqb (dict_set eqb d k v) k = Some v.
Proof.
  induction d as [|[k' v'] d IH]; simpl.
  - replace (eqb k k) with true; [reflexivity|].
    symmetry. apply eqb_R. reflexivity.
  - destruct (eqb k' k) eqn:E; simpl; rewrite E; [reflexivity|exact IH].
Qed.

Lemma dict_get_set_other (d : list (K * V)) k v k2 :
  ~ R k k2 -> dict_get eqb (dict_set eqb d k v) k2 = dict_get eqb d k2.
Proof.
  intro Hne. induction d as [|[k' v'] d IH]; simpl.
  - replace (eqb k k2) with false; [reflexivity|].
    symmetry. apply eqb_R_false. assumption.
  - destruct (eqb k' k) eqn:E; simpl.
    + destruct (eqb k' k2) eqn:E2; [|reflexivity].
      apply eqb_R in E. apply eqb_R in E2. exfalso. apply Hne.
      etransitivity; [symmetry; eassumption|assumption].
    + destruct (eqb k' k2); [reflexivity|exact IH].
Qed.

Lemma dict_set_absent (d : list (K * V)) k v :
  dict_get eqb d k = None -> dict_set eqb d k v = d ++ [(k, v)].
Proof.
  induction d as [|[k' v'] d IH]; simpl; [reflexivity|].
  destruct (eqb k' k); [discriminate|].
  intro H. rewrite (IH H). reflexivity.
Qed.

End DictFacts.

Lemma string_eqb_eq (a b : string) : String.eqb a b = true <-> a = b.
Proof. apply String.eqb_eq. Qed.

Lemma sget_set_same (V : Type) (d : list (string * V)) k v :
  sget (sset d k v) k = Some v.
Proof. exact (dict_get_set_same String.eqb eq _ string_eqb_eq d k v). Qed.

Lemma sget_set_other (V : Type) (d : list (string * V)) k v k2 :
  k <> k2 -> sget (sset d k v) k2 = sget d k2.
Proof. exact (dict_get_set_other String.eqb eq _ string_eqb_eq d k v k2). Qed.



Lemma sget_set (V : Type) (d : list (string * V)) k v k2 :
  sget (sset d k v) k2 = if String.eqb k k2 then Some v else sget d k2.
Proof.
  destruct (String.eqb k k2) eqn:E.
  - apply String.eqb_eq in E. subst. apply sget_set_same.
  - apply sget_set_other. apply String.eqb_neq. exact E.
Qed.


Lemma Ok_inj (A : Type) (a b : A) : Ok a = Ok b -> a = b.
Proof. intro H. inversion H. reflexivity. Qed.

(** ** The decimal context *)

Lemma ilog10_fuel_spec (fuel : nat) :
  forall n, (1 <= n < 2 ^ (Z.of_nat fuel + 1))%Z ->
  (0 <= ilog10_fuel fuel n /\
   10 ^ ilog10_fuel fuel n <= n < 10 ^ (ilog10_fuel fuel n + 1))%Z.
Proof.
  induction fuel as [|fuel IH]; intros n [H1 H2].
  - simpl in H2. assert (n = 1)%Z by lia. subst n. simpl. lia.
  - cbn [ilog10_fuel]. destruct (n <? 10)%Z eqn:E.
    + apply Z.ltb_lt in E. simpl. lia.
    + apply Z.ltb_ge in E.
      assert (B : (1 <= n / 10 < 2 ^ (Z.of_nat fuel + 1))%Z).
      { split.
        - apply Z.div_le_lower_bound; lia.
        - apply Z.div_lt_upper_bound; [lia|].
          replace (Z.of_nat (S fuel) + 1)%Z with (Z.succ (Z.of_nat fuel + 1)) in H2 by lia.
          rewrite Z.pow_succ_r in H2 by lia. lia. }
      destruct (IH _ B) as (K & L & U).
      set (k := ilog10_fuel fuel (n / 10)) in *.
      pose proof (Z.div_mod n 10 ltac:(lia)) as DM.
      pose proof (Z.mod_pos_bound n 10 ltac:(lia)) as MB.
      replace (1 + k + 1)%Z with (Z.succ (k + 1)) by lia.
      replace (1 + k)%Z with (Z.succ k) by lia.
      rewrite !Z.pow_succ_r by lia.
      split; [lia|]. split; lia.
Qed.

Lemma ilog10Z_spec (n : Z) :
  (1 <= n)%Z ->
  (0 <= ilog10Z n /\ 10 ^ ilog10Z n <= n < 10 ^ (ilog10Z n + 1))%Z.
Proof.
  intro H. unfold ilog10Z. apply ilog10_fuel_spec.
  split; [exact H|].
  rewrite Z2Nat.id by apply Z.log2_nonneg.
  pose proof (Z.log2_spec n ltac:(lia)) as L.
  replace (Z.log2 n + 1)%Z with (Z.succ (Z.log2 n)) by lia. lia.
Qed.

Lemma ten_gt_1 : 1 < 10.
Proof. reflexivity. Qed.

Lemma ten_neq_0 : ~ 10 == 0.
Proof. discriminate. Qed.

Lemma pow10_pos (k : Z) : 0 < 10 ^ k.
Proof. apply Qpower_0_lt. reflexivity. Qed.

Lemma pow10_Z (k : Z) : (0 <= k)%Z -> inject_Z (10 ^ k) == 10 ^ k.
Proof. intro H. exact (Zpower_Qpower 10 k H). Qed.

Lemma pow10_succ (k : Z) : 10 ^ (k + 1) == 10 ^ k * 10.
Proof. rewrite Qpower_plus by exact ten_neq_0. reflexivity. Qed.

Lemma decade_unique (x : Q) (k1 k2 : Z) : decade x k1 -> decade x k2 -> k1 = k2.
Proof.
  intros [L1 U1] [L2 U2].
  assert (A : (k1 < k2 + 1)%Z).
  { apply (Qpower_lt_compat_l_inv 10); [|exact ten_gt_1].
    eapply Qle_lt_trans; eassumption. }
  assert (B : (k2 < k1 + 1)%Z).
  { apply (Qpower_lt_compat_l_inv 10); [|exact ten_gt_1].
    eapply Qle_lt_trans; eassumption. }
  lia.
Qed.

Lemma decade_mono (x y : Q) (kx ky : Z) :
  decade x kx -> decade y ky -> x <= y -> (kx <= ky)%Z.
Proof.
  intros [L1 U1] [L2 U2] H.
  assert (A : (kx < ky + 1)%Z).
  { apply (Qpower_lt_compat_l_inv 10); [|exact ten_gt_1].
    eapply Qle_lt_trans; [exact L1|]. eapply Qle_lt_trans; eassumption. }
  lia.
Qed.

Lemma ilog10_spec (x : Q) : 0 < x -> decade x (ilog10 x).
Proof.
  intro X. unfold ilog10.
  destruct x as [a b]. cbn [Qnum Qden].
  assert (A : (1 <= a)%Z).
  { unfold Qlt in X. simpl in X. lia. }
  destruct (ilog10Z_spec a A) as (Ka & La & Ua).
  destruct (ilog10Z_spec (Zpos b) ltac:(lia)) as (Kb & Lb & Ub).
  set (ka := ilog10Z a) in *. set (kb := ilog10Z (Zpos b)) in *.
  assert (Xab : (a # b) * inject_Z (Zpos b) == inject_Z a).
  { rewrite (Qmake_Qdiv a b). field. discriminate. }
  assert (Bpos : 0 < inject_Z (Zpos b)) by reflexivity.
  rewrite Zle_Qle in La. rewrite Zle_Qle in Lb.
  rewrite Zlt_Qlt in Ua. rewrite Zlt_Qlt in Ub.
  rewrite pow10_Z in La, Lb by assumption.
  rewrite pow10_Z in Ua, Ub by lia.
  set (A' := inject_Z a) in *. set (B' := inject_Z (Zpos b)) in *.
  set (x := a # b) in *.
  assert (E1 : 10 ^ (ka + 1) == 10 ^ (ka - kb + 1) * 10 ^ kb).
  { rewrite <- Qpower_plus by exact ten_neq_0. f_equiv. lia. }
  assert (E2 : 10 ^ ka * 10 == 10 ^ (ka - kb - 1 ) * 10 ^ (kb + 1) * 10).
  { rewrite <- Qpower_plus by exact ten_neq_0.
    replace (ka - kb - 1 + (kb + 1))%Z with ka by lia. reflexivity. }
  pose proof (pow10_pos (ka - kb + 1)) as P1.
  pose proof (pow10_pos (ka - kb - 1)) as P2.
  pose proof (pow10_pos kb) as P3.
  destruct (Qle_bool (10 ^ (ka - kb)) x) eqn:C.
  - apply Qle_bool_iff in C. split; [exact C|].
    apply Qnot_le_lt. intro N.
    assert (10 ^ (ka - kb + 1) * 10 ^ kb <= x * B').
    { apply Qle_trans with (10 ^ (ka - kb + 1) * B').
      - apply Qmult_le_l; assumption.
      - apply Qmult_le_compat_r; [exact N|apply Qlt_le_weak; exact Bpos]. }
    rewrite Xab, <- E1 in H. exact (Qlt_not_le _ _ Ua H).
  - assert (C' : x < 10 ^ (ka - kb)).
    { apply Qnot_le_lt. intro N. apply Qle_bool_iff in N. congruence. }
    unfold decade.
    replace (ka - kb - 1 + 1)%Z with (ka - kb)%Z by lia.
    split; [|exact C'].
    apply Qnot_lt_le. intro N.
    assert (x * B' < 10 ^ (ka - kb - 1) * 10 ^ (kb + 1)).
    { apply Qle_lt_trans with (10 ^ (ka - kb - 1) * B').
      - apply Qmult_le_compat_r; [apply Qlt_le_weak; exact N|apply Qlt_le_weak; exact Bpos].
      - apply Qmult_lt_l; assumption. }
    rewrite Xab in H.
    assert (10 ^ (ka - kb - 1) * 10 ^ (kb + 1) == 10 ^ ka).
    { rewrite <- Qpower_plus by exact ten_neq_0. f_equiv. lia. }
    rewrite H0 in H. exact (Qlt_not_le _ _ H La).
Qed.

Lemma decade_comp (x y : Q) (k : Z) : x == y -> decade x k -> decade y k.
Proof. intros E [L U]. split; rewrite <- E; assumption. Qed.

Lemma ilog10_comp (x y : Q) : 0 < x -> x == y -> ilog10 x = ilog10 y.
Proof.
  intros X E.
  apply (decade_unique y).
  - apply (decade_comp x); [exact E|apply ilog10_spec; exact X].
  - apply ilog10_spec. rewrite <- E. exact X.
Qed.

Lemma half_even_comp (x y : Q) : x == y -> half_even x = half_even y.
Proof.
  intro E. unfold half_even.
  rewrite (Qfloor_comp _ _ E).
  assert (C : Qcompare (x - inject_Z (Qfloor y)) (1 # 2) =
              Qcompare (y - inject_Z (Qfloor y)) (1 # 2)).
  { apply Qcompare_comp; [rewrite E|]; reflexivity. }
  rewrite C. reflexivity.
Qed.

Lemma floor_bounds (y : Q) :
  inject_Z (Qfloor y) <= y /\ y < inject_Z (Qfloor y) + 1.
Proof.
  split; [apply Qfloor_le|].
  pose proof (Qlt_floor y) as H. rewrite inject_Z_plus in H. exact H.
Qed.

Lemma half_even_cases (y : Q) :
  (half_even y = Qfloor y /\ y - inject_Z (Qfloor y) <= 1 # 2) \/
  (half_even y = (Qfloor y + 1)%Z /\ 1 # 2 <= y - inject_Z (Qfloor y)).
Proof.
  unfold half_even.
  destruct (Qcompare_spec (y - inject_Z (Qfloor y)) (1 # 2)) as [E|L|G].
  - destruct (Z.even (Qfloor y)); [left|right]; split; try reflexivity;
      rewrite E; apply Qle_refl.
  - left. split; [reflexivity|apply Qlt_le_weak; exact L].
  - right. split; [reflexivity|apply Qlt_le_weak; exact G].
Qed.

Lemma half_even_bounds (y : Q) :
  inject_Z (half_even y) - (1 # 2) <= y /\ y <= inject_Z (half_even y) + (1 # 2).
Proof.
  destruct (floor_bounds y) as [L U].
  destruct (half_even_cases y) as [[E B]|[E B]]; rewrite E.
  - split; lra.
  - rewrite inject_Z_plus. change (inject_Z 1) with 1. split; lra.
Qed.

Lemma half_even_Z (n : Z) : half_even (inject_Z n) = n.
Proof.
  unfold half_even. rewrite Qfloor_Z.
  assert (C : Qcompare (inject_Z n - inject_Z n) (1 # 2) = Lt).
  { apply (proj1 (Qlt_alt _ _)). unfold Qminus. rewrite Qplus_opp_r. reflexivity. }
  rewrite C. reflexivity.
Qed.

Lemma half_even_mono (x y : Q) : x <= y -> (half_even x <= half_even y)%Z.
Proof.
  intro H.
  pose proof (Qfloor_resp_le _ _ H) as F.
  destruct (Z.eq_dec (Qfloor x) (Qfloor y)) as [E|N].
  - unfold half_even. rewrite E.
    destruct (Qcompare_spec (x - inject_Z (Qfloor y)) (1 # 2)) as [E1|L1|G1];
      destruct (Qcompare_spec (y - inject_Z (Qfloor y)) (1 # 2)) as [E2|L2|G2];
      try lia; try (exfalso; lra);
      destruct (Z.even (Qfloor y)); lia.
  - destruct (half_even_cases x) as [[Ex _]|[Ex _]];
      destruct (half_even_cases y) as [[Ey _]|[Ey _]]; lia.
Qed.

Lemma half_even_ge_Z (n : Z) (y : Q) : inject_Z n <= y -> (n <= half_even y)%Z.
Proof. intro H. rewrite <- (half_even_Z n). apply half_even_mono. exact H. Qed.

Lemma half_even_le_Z (n : Z) (y : Q) : y <= inject_Z n -> (half_even y <= n)%Z.
Proof. intro H. rewrite <- (half_even_Z n). apply half_even_mono. exact H. Qed.

(** The scaled value of a positive number has [prec] digits before the point. *)
Lemma scaled_bounds (prec : Z) (x : Q) (k : Z) :
  decade x k ->
  10 ^ (prec - 1) <= x / 10 ^ (k - (prec - 1)) /\
  x / 10 ^ (k - (prec - 1)) < 10 ^ prec.
Proof.
  intros [L U].
  pose proof (pow10_pos (k - (prec - 1))) as P.
  assert (E1 : 10 ^ k == 10 ^ (prec - 1) * 10 ^ (k - (prec - 1))).
  { rewrite <- Qpower_plus by exact ten_neq_0. f_equiv. lia. }
  assert (E2 : 10 ^ (k + 1) == 10 ^ prec * 10 ^ (k - (prec - 1))).
  { rewrite <- Qpower_plus by exact ten_neq_0. f_equiv. lia. }
  split.
  - apply Qle_shift_div_l; [exact P|]. rewrite <- E1. exact L.
  - apply Qlt_shift_div_r; [exact P|]. rewrite <- E2. exact U.
Qed.

Lemma mantissa_bounds (prec : Z) (x : Q) (k : Z) :
  (1 <= prec)%Z -> decade x k ->
  (10 ^ (prec - 1) <= half_even (x / 10 ^ (k - (prec - 1))) <= 10 ^ prec)%Z.
Proof.
  intros P D. destruct (scaled_bounds prec x k D) as [L U].
  split.
  - apply half_even_ge_Z. rewrite pow10_Z by lia. exact L.
  - apply half_even_le_Z. rewrite pow10_Z by lia. apply Qlt_le_weak. exact U.
Qed.

Lemma round_pos_eq (prec : Z) (x : Q) :
  round_pos prec x ==
  inject_Z (half_even (x / 10 ^ (ilog10 x - (prec - 1)))) * 10 ^ (ilog10 x - (prec - 1)).
Proof. unfold round_pos. apply Qred_correct. Qed.

Lemma round_pos_decade (prec : Z) (x : Q) (k : Z) :
  (1 <= prec)%Z -> 0 < x -> decade x k ->
  10 ^ k <= round_pos prec x /\ round_pos prec x <= 10 ^ (k + 1).
Proof.
  intros P X D.
  assert (K : ilog10 x = k).
  { apply (decade_unique x); [apply ilog10_spec; exact X|exact D]. }
  rewrite round_pos_eq, K.
  destruct (mantissa_bounds prec x k P D) as [L U].
  rewrite Zle_Qle in L. rewrite Zle_Qle in U.
  rewrite pow10_Z in L, U by lia.
  pose proof (pow10_pos (k - (prec - 1))) as E.
  assert (E1 : 10 ^ k == 10 ^ (prec - 1) * 10 ^ (k - (prec - 1))).
  { rewrite <- Qpower_plus by exact ten_neq_0. f_equiv. lia. }
  assert (E2 : 10 ^ (k + 1) == 10 ^ prec * 10 ^ (k - (prec - 1))).
  { rewrite <- Qpower_plus by exact ten_neq_0. f_equiv. lia. }
  rewrite E1, E2. split; apply Qmult_le_compat_r;
    try assumption; apply Qlt_le_weak; exact E.
Qed.

Lemma round_pos_pos (prec : Z) (x : Q) :
  (1 <= prec)%Z -> 0 < x -> 0 < round_pos prec x.
Proof.
  intros P X.
  destruct (round_pos_decade prec x _ P X (ilog10_spec x X)) as [L _].
  eapply Qlt_le_trans; [apply pow10_pos|exact L].
Qed.

Lemma round_pos_comp (prec : Z) (x y : Q) :
  0 < x -> x == y -> round_pos prec x = round_pos prec y.
Proof.
  intros X E. unfold round_pos.
  rewrite <- (ilog10_comp x y X E).
  assert (R : half_even (x / 10 ^ (ilog10 x - (prec - 1))) =
              half_even (y / 10 ^ (ilog10 x - (prec - 1)))).
  { apply half_even_comp. unfold Qdiv. apply Qmult_comp; [exact E|reflexivity]. }
  rewrite R. reflexivity.
Qed.

Lemma round_pos_mono (prec : Z) (x y : Q) :
  (1 <= prec)%Z -> 0 < x -> x <= y -> round_pos prec x <= round_pos prec y.
Proof.
  intros P X H.
  assert (Y : 0 < y) by (eapply Qlt_le_trans; eassumption).
  pose proof (ilog10_spec x X) as Dx. pose proof (ilog10_spec y Y) as Dy.
  pose proof (decade_mono x y _ _ Dx Dy H) as K.
  destruct (Z.eq_dec (ilog10 x) (ilog10 y)) as [E|N].
  - rewrite !round_pos_eq, E.
    pose proof (pow10_pos (ilog10 y - (prec - 1))) as T.
    apply Qmult_le_compat_r; [|apply Qlt_le_weak; exact T].
    rewrite <- Zle_Qle. apply half_even_mono.
    apply Qmult_le_compat_r; [exact H|].
    apply Qlt_le_weak. apply Qinv_lt_0_compat. exact T.
  - destruct (round_pos_decade prec x _ P X Dx) as [_ U].
    destruct (round_pos_decade prec y _ P Y Dy) as [L _].
    eapply Qle_trans; [exact U|]. eapply Qle_trans; [|exact L].
    apply Qpower_le_compat_l; [lia|discriminate].
Qed.

Lemma round_sig_pos_eq (prec : Z) (x : Q) :
  0 < x -> round_sig prec x = round_pos prec x.
Proof.
  intro X. unfold round_sig.
  assert (C : Qcompare x 0 = Gt) by (apply (proj1 (Qgt_alt _ _)); exact X).
  rewrite C. reflexivity.
Qed.

Lemma round_sig_neg_eq (prec : Z) (x : Q) :
  x < 0 -> round_sig prec x = - round_pos prec (- x).
Proof.
  intro X. unfold round_sig.
  assert (C : Qcompare x 0 = Lt) by (apply (proj1 (Qlt_alt _ _)); exact X).
  rewrite C. reflexivity.
Qed.

Lemma round_sig_zero_eq (prec : Z) (x : Q) : x == 0 -> round_sig prec x = 0.
Proof.
  intro X. unfold round_sig.
  assert (C : Qcompare x 0 = Eq) by (apply (proj1 (Qeq_alt _ _)); exact X).
  rewrite C. reflexivity.
Qed.

Lemma round_sig_comp (prec : Z) (x y : Q) :
  x == y -> round_sig prec x = round_sig prec y.
Proof.
  intro E.
  destruct (Q_dec x 0) as [[L|G]|Z].
  - rewrite (round_sig_neg_eq prec x L).
    rewrite (round_sig_neg_eq prec y) by (rewrite <- E; exact L).
    f_equal. apply round_pos_comp; [lra|rewrite E; reflexivity].
  - rewrite (round_sig_pos_eq prec x G).
    rewrite (round_sig_pos_eq prec y) by (rewrite <- E; exact G).
    apply round_pos_comp; assumption.
  - rewrite (round_sig_zero_eq prec x Z).
    rewrite (round_sig_zero_eq prec y) by (rewrite <- E; exact Z).
    reflexivity.
Qed.

Lemma round_sig_opp (prec : Z) (x : Q) :
  round_sig prec (- x) = - round_sig prec x.
Proof.
  destruct (Q_dec x 0) as [[L|G]|Z].
  - rewrite (round_sig_neg_eq prec x L).
    rewrite (round_sig_pos_eq prec (- x)) by lra.
    destruct (round_pos prec (- x)) as [a b]. unfold Qopp. cbn [Qnum Qden].
    rewrite Z.opp_involutive. reflexivity.
  - rewrite (round_sig_pos_eq prec x G).
    rewrite (round_sig_neg_eq prec (- x)) by lra.
    f_equal. apply round_pos_comp; [lra|ring].
  - rewrite (round_sig_zero_eq prec x Z).
    rewrite (round_sig_zero_eq prec (- x)) by lra.
    reflexivity.
Qed.

Lemma round_sig_0 (prec : Z) : round_sig prec 0 = 0.
Proof. reflexivity. Qed.

(** Rounding keeps the sign. *)
Lemma round_sig_pos (prec : Z) (x : Q) :
  (1 <= prec)%Z -> 0 < x -> 0 < round_sig prec x.
Proof. intros P X. rewrite round_sig_pos_eq by exact X. apply round_pos_pos; assumption. Qed.

Lemma round_sig_neg (prec : Z) (x : Q) :
  (1 <= prec)%Z -> x < 0 -> round_sig prec x < 0.
Proof.
  intros P X. rewrite round_sig_neg_eq by exact X.
  assert (0 < round_pos prec (- x)) by (apply round_pos_pos; [exact P|lra]).
  lra.
Qed.

Lemma round_sig_nonneg (prec : Z) (x : Q) :
  (1 <= prec)%Z -> 0 <= x -> 0 <= round_sig prec x.
Proof.
  intros P X. destruct (Qle_lt_or_eq _ _ X) as [L|E].
  - apply Qlt_le_weak. apply round_sig_pos; assumption.
  - rewrite (round_sig_zero_eq prec x) by (symmetry; exact E). apply Qle_refl.
Qed.

Lemma round_sig_nonpos (prec : Z) (x : Q) :
  (1 <= prec)%Z -> x <= 0 -> round_sig prec x <= 0.
Proof.
  intros P X. destruct (Qle_lt_or_eq _ _ X) as [L|E].
  - apply Qlt_le_weak. apply round_sig_neg; assumption.
  - rewrite (round_sig_zero_eq prec x E). apply Qle_refl.
Qed.

Lemma round_sig_zero_inv (prec : Z) (x : Q) :
  (1 <= prec)%Z -> round_sig prec x == 0 -> x == 0.
Proof.
  intros P H. destruct (Q_dec x 0) as [[L|G]|Z]; [| |exact Z].
  - pose proof (round_sig_neg prec x P L). lra.
  - pose proof (round_sig_pos prec x P G). lra.
Qed.

(** Rounding is monotone. *)
Lemma round_sig_mono (prec : Z) (x y : Q) :
  (1 <= prec)%Z -> x <= y -> round_sig prec x <= round_sig prec y.
Proof.
  intros P H.
  destruct (Q_dec x 0) as [[Lx|Gx]|Zx].
  - destruct (Qlt_le_dec y 0) as [Ly|Gy].
    + rewrite (round_sig_neg_eq prec x Lx), (round_sig_neg_eq prec y Ly).
      apply Qopp_le_compat. apply round_pos_mono; [exact P|lra|lra].
    + apply Qle_trans with 0.
      * apply round_sig_nonpos; [exact P|lra].
      * apply round_sig_nonneg; assumption.
  - rewrite (round_sig_pos_eq prec x Gx).
    rewrite (round_sig_pos_eq prec y) by lra.
    apply round_pos_mono; assumption.
  - rewrite (round_sig_zero_eq prec x Zx).
    apply round_sig_nonneg; [exact P|lra].
Qed.

(** A number with at most [prec] digits is its own rounding. *)
Lemma round_pos_exact (prec : Z) (x : Q) (m e : Z) :
  (1 <= prec)%Z -> (1 <= m < 10 ^ prec)%Z -> x == inject_Z m * 10 ^ e ->
  round_pos prec x = Qred x.
Proof.
  intros P [M1 M2] E.
  pose proof (pow10_pos e) as Pe.
  rewrite Zle_Qle in M1. rewrite Zlt_Qlt in M2. rewrite pow10_Z in M2 by lia.
  change (inject_Z 1) with 1 in M1.
  assert (X : 0 < x).
  { rewrite E. apply Qmult_lt_0_compat; [lra|exact Pe]. }
  destruct (ilog10_spec x X) as [L U].
  set (k := ilog10 x) in *.
  assert (K : (k < prec + e)%Z).
  { apply (Qpower_lt_compat_l_inv 10); [|exact ten_gt_1].
    eapply Qle_lt_trans; [exact L|].
    rewrite E, Qpower_plus by exact ten_neq_0.
    apply Qmult_lt_compat_r; assumption. }
  unfold round_pos. fold k.
  set (e' := (k - (prec - 1))%Z).
  assert (D : (0 <= e - e')%Z) by (unfold e'; lia).
  assert (S : x / 10 ^ e' == inject_Z (m * 10 ^ (e - e'))).
  { rewrite inject_Z_mult, pow10_Z by exact D.
    rewrite E. unfold Zminus. rewrite Qpower_plus by exact ten_neq_0.
    rewrite Qpower_opp. field.
    apply Qnot_eq_sym. apply Qlt_not_eq. apply pow10_pos. }
  rewrite (half_even_comp _ _ S), half_even_Z.
  apply Qred_complete.
  rewrite inject_Z_mult, pow10_Z by exact D.
  rewrite E. unfold Zminus. rewrite Qpower_plus by exact ten_neq_0.
  rewrite Qpower_opp. field.
  apply Qnot_eq_sym. apply Qlt_not_eq. apply pow10_pos.
Qed.

Lemma Qred_Qred (x : Q) : Qred (Qred x) = Qred x.
Proof. apply Qred_complete. apply Qred_correct. Qed.

(** Rounding twice is rounding once. *)
Lemma round_pos_idem (prec : Z) (x : Q) :
  (1 <= prec)%Z -> 0 < x -> round_pos prec (round_pos prec x) = round_pos prec x.
Proof.
  intros P X.
  pose proof (ilog10_spec x X) as D.
  destruct (mantissa_bounds prec x _ P D) as [L U].
  set (e := (ilog10 x - (prec - 1))%Z) in *.
  set (m := half_even (x / 10 ^ e)) in *.
  assert (R : round_pos prec x = Qred (inject_Z m * 10 ^ e)) by reflexivity.
  assert (M : (0 < 10 ^ (prec - 1))%Z) by (apply Z.pow_pos_nonneg; lia).
  destruct (Z.eq_dec m (10 ^ prec)) as [E|N].
  - rewrite R at 2. rewrite <- Qred_Qred. rewrite <- R.
    apply (round_pos_exact prec _ 1 (e + prec) P).
    + split; [lia|]. apply Z.pow_gt_1; lia.
    + rewrite R, Qred_correct, E, pow10_Z by lia.
      rewrite Qpower_plus by exact ten_neq_0. ring.
  - rewrite R at 2. rewrite <- Qred_Qred. rewrite <- R.
    apply (round_pos_exact prec _ m e P).
    + lia.
    + rewrite R. apply Qred_correct.
Qed.

Lemma round_sig_idem (prec : Z) (x : Q) :
  (1 <= prec)%Z -> round_sig prec (round_sig prec x) = round_sig prec x.
Proof.
  intro P.
  destruct (Q_dec x 0) as [[L|G]|Z].
  - rewrite <- (round_sig_comp prec (- - x) x) by ring.
    rewrite (round_sig_opp prec (- x)), round_sig_opp.
    rewrite (round_sig_pos_eq prec (- x)) by lra.
    rewrite (round_sig_pos_eq prec (round_pos prec (- x)))
      by (apply round_pos_pos; [exact P|lra]).
    rewrite round_pos_idem by (try exact P; lra). reflexivity.
  - rewrite (round_sig_pos_eq prec x G).
    rewrite (round_sig_pos_eq prec (round_pos prec x))
      by (apply round_pos_pos; assumption).
    apply round_pos_idem; assumption.
  - rewrite (round_sig_zero_eq prec x Z). reflexivity.
Qed.

(** The quotient of a positive number by its rounding is at most
    [1 + 1 / (2 * 10 ^ (prec - 1))]. *)
Lemma round_pos_quotient (prec : Z) (x : Q) :
  (1 <= prec)%Z -> 0 < x ->
  x / round_pos prec x <= 1 + 1 / (2 * 10 ^ (prec - 1)).
Proof.
  intros P X.
  pose proof (ilog10_spec x X) as D.
  destruct (mantissa_bounds prec x _ P D) as [L _].
  pose proof (round_pos_pos prec x P X) as R.
  rewrite round_pos_eq in *.
  set (e := (ilog10 x - (prec - 1))%Z) in *.
  destruct (half_even_bounds (x / 10 ^ e)) as [_ B].
  set (m := half_even (x / 10 ^ e)) in *.
  pose proof (pow10_pos e) as Pe.
  pose proof (pow10_pos (prec - 1)) as Pp.
  rewrite Zle_Qle in L. rewrite pow10_Z in L by lia.
  assert (Mp : 0 < inject_Z m) by lra.
  assert (Xe : x <= (inject_Z m + (1 # 2)) * 10 ^ e).
  { assert (S : x == x / 10 ^ e * 10 ^ e) by (field; lra).
    rewrite S at 1. apply Qmult_le_compat_r; [exact B|lra]. }
  apply Qle_shift_div_r; [exact R|].
  eapply Qle_trans; [exact Xe|].
  assert (H : (1 + 1 / (2 * 10 ^ (prec - 1))) * (inject_Z m * 10 ^ e) ==
              (inject_Z m + inject_Z m / (2 * 10 ^ (prec - 1))) * 10 ^ e).
  { field. lra. }
  rewrite H. apply Qmult_le_compat_r; [|lra].
  apply Qplus_le_r.
  apply Qle_shift_div_l; [lra|]. lra.
Qed.

(** ** The operations of the decimal context *)

Lemma prec_pos : (1 <= 28)%Z.
Proof. lia. Qed.

Lemma rounded_round (x : Q) : rounded (round_sig 28 x).
Proof. unfold rounded. rewrite round_sig_idem by exact prec_pos. reflexivity. Qed.

Lemma rounded_0 : rounded 0.
Proof. reflexivity. Qed.

Lemma rounded_eq (x : Q) : round_sig 28 x = x -> rounded x.
Proof. intro H. unfold rounded. rewrite H. reflexivity. Qed.

Lemma round_rounded (x y : Q) : rounded y -> x == y -> round_sig 28 x == y.
Proof. intros R E. rewrite (round_sig_comp 28 x y E). exact R. Qed.

Lemma dadd_comm (x y : Q) : dadd x y = dadd y x.
Proof. apply round_sig_comp. ring. Qed.

Lemma dmul_comm (x y : Q) : dmul x y = dmul y x.
Proof. apply round_sig_comp. ring. Qed.

Lemma dadd_0_r (x : Q) : rounded x -> dadd x 0 == x.
Proof. intro R. apply round_rounded; [exact R|ring]. Qed.

Lemma dadd_0_l (x : Q) : rounded x -> dadd 0 x == x.
Proof. intro R. apply round_rounded; [exact R|ring]. Qed.

Lemma dsub_0_r (x : Q) : rounded x -> dsub x 0 == x.
Proof. intro R. apply round_rounded; [exact R|ring]. Qed.

Lemma dmul_0_r (x y : Q) : y == 0 -> dmul x y = 0.
Proof. intro Z. apply round_sig_zero_eq. rewrite Z. ring. Qed.

Lemma dmul_0_l (x y : Q) : x == 0 -> dmul x y = 0.
Proof. intro Z. apply round_sig_zero_eq. rewrite Z. ring. Qed.

Lemma dadd_nonneg (x y : Q) : 0 <= x -> 0 <= y -> 0 <= dadd x y.
Proof. intros X Y. apply round_sig_nonneg; [exact prec_pos|lra]. Qed.

Lemma dmul_nonneg (x y : Q) : 0 <= x -> 0 <= y -> 0 <= dmul x y.
Proof.
  intros X Y. apply round_sig_nonneg; [exact prec_pos|].
  apply Qmult_le_0_compat; assumption.
Qed.

Lemma dmul_pos (x y : Q) : 0 < x -> 0 < y -> 0 < dmul x y.
Proof.
  intros X Y. apply round_sig_pos; [exact prec_pos|].
  apply Qmult_lt_0_compat; assumption.
Qed.

Lemma Qdiv_nonneg (a b : Q) : 0 <= a -> 0 <= b -> 0 <= a / b.
Proof.
  intros A B. unfold Qdiv. apply Qmult_le_0_compat; [exact A|].
  apply Qinv_le_0_compat. exact B.
Qed.


Lemma ddiv_nonneg (x y : Q) : 0 <= x -> 0 <= y -> 0 <= ddiv x y.
Proof.
  intros X Y. apply round_sig_nonneg; [exact prec_pos|].
  apply Qdiv_nonneg; assumption.
Qed.






Lemma dabs_nonneg (x : Q) : 0 <= dabs x.
Proof. apply round_sig_nonneg; [exact prec_pos|apply Qabs_nonneg]. Qed.

Lemma round_le_rounded (x y : Q) : rounded y -> x <= y -> round_sig 28 x <= y.
Proof.
  intros R H. unfold rounded in R.
  apply Qle_trans with (round_sig 28 y).
  - apply round_sig_mono; [exact prec_pos|exact H].
  - rewrite R. apply Qle_refl.
Qed.




(** A decimal number m * 10^e whose coefficient m has at most 28 digits is
    its own rounding. *)
Lemma rounded_decimal (m e : Z) :
  (Z.abs m < 10 ^ 28)%Z -> rounded (inject_Z m * 10 ^ e).
Proof.
  intro B. unfold rounded.
  pose proof (pow10_pos e) as Pe.
  destruct (Z.lt_trichotomy m 0) as [N|[Z|P]].
  - assert (M : (1 <= - m < 10 ^ 28)%Z) by lia.
    assert (X : inject_Z m * 10 ^ e < 0).
    { assert (I : inject_Z m < 0) by (rewrite (Zlt_Qlt m 0) in N; exact N).
      setoid_replace (inject_Z m * 10 ^ e) with (- (- inject_Z m * 10 ^ e)) by ring.
      assert (0 < - inject_Z m * 10 ^ e) by (apply Qmult_lt_0_compat; lra).
      lra. }
    rewrite (round_sig_neg_eq 28 _ X).
    rewrite (round_pos_exact 28 _ (- m) e prec_pos M).
    + rewrite Qred_correct. ring.
    + rewrite inject_Z_opp. ring.
  - subst m. rewrite (round_sig_zero_eq 28 (inject_Z 0 * 10 ^ e)); ring.
  - assert (M : (1 <= m < 10 ^ 28)%Z) by lia.
    assert (X : 0 < inject_Z m * 10 ^ e).
    { apply Qmult_lt_0_compat; [|exact Pe]. rewrite (Zlt_Qlt 0 m) in P. exact P. }
    rewrite (round_sig_pos_eq 28 _ X).
    rewrite (round_pos_exact 28 _ m e prec_pos M); [|reflexivity].
    apply Qred_correct.
Qed.

(** ** Minting and redeeming *)







(** With 10^30 in cash, minting 1 leaves cash at 10^30. *)
Example mint_rounds_sum :
  cash (vault_after (mint 1002 1 large_vault)) == cash large_vault.
Proof. vm_compute. reflexivity. Qed.

(** ** The asset registry *)

(** C10. [set_asset_price(asset, price)] raises on no input: whatever the
    name and the price, it returns, the history of the name is the single
    observation [(now, price)], and its price is [price]; holdings, liquidity
    values, thresholds, cash, supply and flow logs are the ones of the vault
    it was called on, so an unregistered name gets a price and a history and
    nothing else. *)
Theorem set_asset_price_spec (now : Q) (asset : string) (p : Q) (v : Vault) :
  exists v', set_asset_price now asset p v = Return tt v' /\
    sget (price_volatility v') asset = Some [mkPriceObservation now p] /\
    sget (prices v') asset = Some p /\
    assets v' = assets v /\
    asset_liquidity_value v' = asset_liquidity_value v /\
    thresholds v' = thresholds v /\
    cash v' = cash v /\
    token_supply v' = token_supply v /\
    deposit_requests v' = deposit_requests v /\
    withdrawal_requests v' = withdrawal_requests v.
Proof.
  unfold set_asset_price. eexists. split; [reflexivity|]. simpl.
  split; [apply sget_set_same|].
  split; [apply sget_set_same|].
  repeat split.
Qed.

(** The other names keep their price and their history. *)
Lemma set_asset_price_others (now : Q) (asset : string) (p : Q) (v : Vault) (a : string) :
  asset <> a ->
  let v' := vault_after (set_asset_price now asset p v) in
  sget (prices v') a = sget (prices v) a /\
  sget (price_volatility v') a = sget (price_volatility v) a.
Proof.
  intros H. simpl. split; apply sget_set_other; exact H.
Qed.

(** A price of zero or below, for a name that was never registered. *)
Example set_asset_price_unregistered :
  let v' := vault_after (set_asset_price 7 "DOGE" (-3) (new_vault "Base" (2 # 10) (5 # 100) 100)) in
  sget (prices v') "DOGE" = Some (-3) /\
  sget (assets v') "DOGE" = None /\
  sget (asset_liquidity_value v') "DOGE" = None /\
  sget (thresholds v') "DOGE" = None.
Proof. repeat split. Qed.

(** ** Flow rates *)






(** One deposit of 1 and a window of 3: the rate is 1/3 rounded to 28
    digits. *)
Example get_inflow_rounds_rate :
  get_inflow 10 (vault_after (mint 9 1 (new_vault "Base" (2 # 10) (5 # 100) 3))) =
  Ok 0.3333333333333333333333333333.
Proof. vm_compute. reflexivity. Qed.

(** ** Liquidability *)

Lemma get_current_cash_threshold_ratio (v : Vault) (tv : Q) :
  get_total_value v = Ok tv ->
  get_current_cash_threshold v = Ok (cash_ratio v tv).
Proof.
  intro H. unfold get_current_cash_threshold, cash_ratio. rewrite H. simpl.
  destruct (Qeq_bool tv 0); reflexivity.
Qed.

Lemma get_current_cash_threshold_err (v : Vault) (e : exn) :
  get_total_value v = Err e -> get_current_cash_threshold v = Err e.
Proof.
  intro H. unfold get_current_cash_threshold. rewrite H. reflexivity.
Qed.

Lemma is_liquidable_err (v : Vault) (e : exn) :
  get_total_value v = Err e -> is_liquidable v = Err e.
Proof.
  intro H. unfold is_liquidable.
  rewrite (get_current_cash_threshold_err v e H). reflexivity.
Qed.

(** C1, as the code has it.  [is_liquidable()] returns true exactly when
    cashRatio < liquidationTriggerThreshold, where cashRatio is 0 when
    totalValue = 0 and otherwise cash / totalValue rounded to 28 significant
    digits; there is no test of totalValue > 0, so that when totalValue = 0
    it returns true exactly when the trigger threshold is positive. *)
Theorem is_liquidable_spec (v : Vault) (tv : Q) :
  get_total_value v = Ok tv ->
  (is_liquidable v = Ok true <-> cash_ratio v tv < liquidation_trigger_threshold v) /\
  (is_liquidable v = Ok false <-> liquidation_trigger_threshold v <= cash_ratio v tv) /\
  (~ tv == 0 -> cash_ratio v tv = round_sig 28 (cash v / tv)) /\
  (tv == 0 -> (is_liquidable v = Ok true <-> 0 < liquidation_trigger_threshold v)).
Proof.
  intro H. unfold is_liquidable.
  rewrite (get_current_cash_threshold_ratio v tv H). simpl.
  assert (T : Ok (Qltb (cash_ratio v tv) (liquidation_trigger_threshold v)) = Ok true <->
              cash_ratio v tv < liquidation_trigger_threshold v).
  { rewrite <- Qltb_lt. split; [intro E; inversion E; reflexivity|intro E; rewrite E; reflexivity]. }
  split; [exact T|]. split; [|split].
  - rewrite <- Qltb_ge.
    split; [intro E; inversion E; reflexivity|intro E; rewrite E; reflexivity].
  - intro N. unfold cash_ratio. apply Qeq_bool_false in N. rewrite N. reflexivity.
  - intro Z. rewrite T. unfold cash_ratio.
    apply Qeq_bool_iff in Z. rewrite Z. reflexivity.
Qed.

Lemma is_liquidable_spec_witness :
  (is_liquidable scenario3 = Ok true <->
   cash_ratio scenario3 8200 < liquidation_trigger_threshold scenario3) /\
  (is_liquidable scenario3 = Ok false <->
   liquidation_trigger_threshold scenario3 <= cash_ratio scenario3 8200) /\
  (~ 8200 == 0 -> cash_ratio scenario3 8200 = round_sig 28 (cash scenario3 / 8200)) /\
  (8200 == 0 ->
   (is_liquidable scenario3 = Ok true <-> 0 < liquidation_trigger_threshold scenario3)).
Proof.
  apply (is_liquidable_spec scenario3 8200). vm_compute. reflexivity.
Defined.

(** A vault that holds nothing has total value 0 and is liquidable. *)
Lemma empty_vault_is_liquidable :
  ~ is_liquidable_guarded (new_vault "Base" (2 # 10) (5 # 100) 100).
Proof.
  intro H. destruct (H 0 eq_refl) as [H1 _].
  destruct (H1 eq_refl) as [H0 _].
  vm_compute in H0. discriminate H0.
Qed.

(** A vault whose exact cash ratio, 0.99...9 / 20, is below the trigger
    threshold 0.05: the quotient is rounded to 0.05, and the vault is not
    liquidable. *)
Example is_liquidable_rounds_ratio :
  let v := vault_after (mint 1004 0.9999999999999999999999999999
             (vault_after (redeem 1003 4.75
               (vault_after (rebalance
                 (vault_after (mint 1001 23.75 scenario0))))))) in
  is_liquidable v = Ok false /\
  get_total_value v = Ok 20 /\
  cash v / 20 < liquidation_trigger_threshold v.
Proof. vm_compute. repeat split. Qed.

(** ** User-driven liquidation *)

(** Whenever the asset is registered and priced, the holdings cover the
    amount and cash does not cover its value, [liquidate_asset] leaves through
    the [TypeError] of its call of [swing_pricing], on the vault it was
    called on. *)
Lemma liquidate_asset_raises (asset : string) (amount : Q) (v : Vault) (holdings p : Q) :
  sget (assets v) asset = Some holdings ->
  sget (prices v) asset = Some p ->
  amount <= holdings ->
  cash v < dmul amount p ->
  liquidate_asset asset amount v =
  Raise (TypeError "Vault.swing_pricing() takes 3 positional arguments but 4 were given") v.
Proof.
  intros Ha Hp Hh Hc. unfold liquidate_asset. rewrite Ha, Hp.
  apply Qltb_ge in Hh. rewrite Hh.
  apply Qle_bool_gt in Hc. rewrite Hc. reflexivity.
Qed.

(** [liquidate_asset] returns on no input. *)
Lemma liquidate_asset_never_returns (asset : string) (amount : Q) (v : Vault) :
  exists e, liquidate_asset asset amount v = Raise e v.
Proof.
  unfold liquidate_asset.
  destruct (sget (assets v) asset); [|eexists; reflexivity].
  destruct (sget (prices v) asset); [|eexists; reflexivity].
  destruct (Qltb q amount); [eexists; reflexivity|].
  destruct (Qle_bool (dmul amount q0) (cash v)); eexists; reflexivity.
Qed.

(** C4, at the end of the scenario: 6560 X at price 1 and 1640 in cash.
    Liquidating 2000 X passes every check, and raises [TypeError] instead of
    returning the split of 2000. *)
Theorem liquidate_asset_scenario :
  (exists holdings, sget (assets scenario4) "X" = Some holdings /\ holdings == 6560) /\
  sget (prices scenario4) "X" = Some 1 /\
  cash scenario4 == 1640 /\
  liquidate_asset "X" 2000 scenario4 =
  Raise (TypeError "Vault.swing_pricing() takes 3 positional arguments but 4 were given")
    scenario4.
Proof.
  split; [|split; [|split]].
  - eexists. split; vm_compute; reflexivity.
  - vm_compute. reflexivity.
  - vm_compute. reflexivity.
  - apply (liquidate_asset_raises "X" 2000 scenario4 6560 1);
      [vm_compute; reflexivity | vm_compute; reflexivity | vm_compute; discriminate
      | vm_compute; reflexivity].
Qed.

(** ** Swing pricing *)

(** Whatever the square root and the exponential, a fee that
    [swing_pricing] returns lies between 0 and 1. *)
Lemma swing_pricing_bounds (dsqrt : Q -> Q) (dexp : Q -> option Q) (now_flow now_vol : Q)
    (v : Vault) (asset : string) (inflow : bool) (fee : Q) :
  swing_pricing dsqrt dexp now_flow now_vol v asset inflow = Ok fee ->
  0 <= fee /\ fee <= 1.
Proof.
  unfold swing_pricing.
  destruct (if inflow then get_inflow now_flow v else get_outflow now_flow v) as [flow|e];
    simpl; [|discriminate].
  destruct (get_price_volatility dsqrt now_vol v asset) as [vol|e]; simpl; [|discriminate].
  destruct (get_current_asset_threshold v asset) as [threshold|e]; simpl; [|discriminate].
  destruct (dexp _) as [ex|]; [|discriminate].
  set (final_fee := dmul _ _).
  intro H. inversion H as [F]. clear H F.
  destruct (Qltb final_fee 1) eqn:C1.
  - apply Qltb_lt in C1.
    destruct (Qltb 0 final_fee) eqn:C0.
    + apply Qltb_lt in C0. split; apply Qlt_le_weak; assumption.
    + split; [apply Qle_refl|discriminate].
  - replace (Qltb 0 1) with true by reflexivity.
    split; [discriminate|apply Qle_refl].
Qed.

(** ** Volatility *)


Section Volatility.
Variable dsqrt : Q -> Q.


(** An asset without a price history: the lookup fails. *)
Lemma get_price_volatility_unknown (now : Q) (v : Vault) (asset : string) :
  sget (price_volatility v) asset = None ->
  get_price_volatility dsqrt now v asset = Err (KeyError asset).
Proof.
  intro H. unfold get_price_volatility. rewrite H. reflexivity.
Qed.
End Volatility.



(** The same three prices in another order give another result. *)
Example volatility_depends_on_order :
  windowed_prices 900 [mkPriceObservation 950 3411.5; mkPriceObservation 960 64000;
                       mkPriceObservation 970 1.1] = [3411.5; 64000; 1.1] /\
  get_price_volatility decimal_sqrt 1000 ordered_vault "X" <>
  get_price_volatility decimal_sqrt 1000 reordered_vault "X".
Proof.
  split; [reflexivity|].
  intro H. vm_compute in H. discriminate H.
Qed.

(** ** Protocol-driven liquidation *)

Lemma sget_default_nonzero (d : list (string * Q)) (a : string) :
  Qeq_bool (sget_default d a 0) 0 = false ->
  exists x, sget d a = Some x /\ sget_default d a 0 = x /\ ~ x == 0.
Proof.
  unfold dict_get_default. destruct (sget d a) as [x|]; intro H.
  - exists x. repeat split. apply Qeq_bool_neq. exact H.
  - discriminate H.
Qed.












(** ** What rebalancing and liquidation leave alone *)

Lemma sget_None_iff (V : Type) (d : list (string * V)) (k : string) :
  sget d k = None <-> ~ In k (dict_keys d).
Proof.
  induction d as [|[k' x] d IH]; simpl.
  - split; [intros _ []|reflexivity].
  - destruct (String.eqb k' k) eqn:E.
    + apply String.eqb_eq in E. split; [discriminate|].
      intro N. exfalso. apply N. left. exact E.
    + apply String.eqb_neq in E. rewrite IH. split.
      * intros N [H|H]; [exact (E H)|exact (N H)].
      * intros N H. apply N. right. exact H.
Qed.

Lemma smem_false_sget (V : Type) (d : list (string * V)) (k : string) :
  smem d k = false <-> sget d k = None.
Proof.
  unfold dict_mem. destruct (sget d k); split; congruence.
Qed.

Lemma smem_true_sget (V : Type) (d : list (string * V)) (k : string) :
  smem d k = true <-> sget d k <> None.
Proof.
  unfold dict_mem. destruct (sget d k); split; congruence.
Qed.

Lemma dict_keys_sset_present (V : Type) (d : list (string * V)) (k : string) (x h : V) :
  sget d k = Some h -> dict_keys (sset d k x) = dict_keys d.
Proof.
  unfold dict_keys. induction d as [|[k' x'] d IH]; simpl; [discriminate|].
  destruct (String.eqb k' k); simpl; [reflexivity|].
  intro H. rewrite (IH H). reflexivity.
Qed.

Lemma dict_keys_sset_absent (V : Type) (d : list (string * V)) (k : string) (x : V) :
  sget d k = None -> dict_keys (sset d k x) = dict_keys d ++ [k].
Proof.
  intro H. rewrite (dict_set_absent String.eqb d k x H).
  unfold dict_keys. rewrite map_app. reflexivity.
Qed.



Lemma trades_refl (v : Vault) : trades v v.
Proof.
  split; [|split].
  - split; [reflexivity|]. intro a. reflexivity.
  - split; reflexivity.
  - repeat split.
Qed.

Lemma trades_trans (v1 v2 v3 : Vault) : trades v1 v2 -> trades v2 v3 -> trades v1 v3.
Proof.
  intros ([P12 A12] & [K12 Q12] & B12) ([P23 A23] & [K23 Q23] & B23).
  split; [|split].
  - split; [congruence|]. intro a. rewrite A23. apply A12.
  - split; congruence.
  - unfold same_books in *.
    destruct B12 as (A1 & A2 & A3 & A4 & A5 & A6 & A7 & A8 & A9 & A10 & A11).
    destruct B23 as (B1 & B2 & B3 & B4 & B5 & B6 & B7 & B8 & B9 & B10 & B11).
    repeat split; congruence.
Qed.

Lemma trades_step (v : Vault) (asset : string) (h x c : Q) :
  sget (assets v) asset = Some h ->
  trades v (upd_cash (upd_assets v (sset (assets v) asset x)) c).
Proof.
  intro E. split; [|split].
  - split; [reflexivity|]. intro a. simpl. rewrite sget_set.
    destruct (String.eqb asset a) eqn:Ea; [|reflexivity].
    apply String.eqb_eq in Ea. subst a. rewrite E. split; discriminate.
  - split; [|reflexivity]. simpl. exact (dict_keys_sset_present _ _ _ _ _ E).
  - repeat split.
Qed.

Lemma trades_cash (v : Vault) (c : Q) : trades v (upd_cash v c).
Proof.
  split; [|split].
  - split; [reflexivity|]. intro a. reflexivity.
  - split; reflexivity.
  - repeat split.
Qed.

Lemma rebalance_loop_trades (excess_cash : Q) (todo : list string) :
  forall v, trades v (vault_after (rebalance_loop excess_cash todo v)).
Proof.
  induction todo as [|asset rest IH]; intro v; simpl.
  - apply trades_refl.
  - destruct (Qeq_bool (sget_default (prices v) asset 0) 0); [apply trades_refl|].
    destruct (sget (prices v) asset); [|apply trades_refl].
    destruct (sget (assets v) asset) as [h|] eqn:Eh; [|apply trades_refl].
    eapply trades_trans; [|apply IH].
    exact (trades_step v asset h _ (cash v) Eh).
Qed.

Lemma rebalance_trades (v : Vault) : trades v (vault_after (rebalance v)).
Proof.
  unfold rebalance.
  destruct (get_current_cash_threshold v) as [r|e]; [|apply trades_refl].
  destruct (Qle_bool r (optimal_cash_threshold v)); [apply trades_refl|].
  destruct (get_total_value v) as [tv|e]; [|apply trades_refl].
  match goal with
  | |- context [rebalance_loop ?x ?l v] =>
      pose proof (rebalance_loop_trades x l v) as L;
      destruct (rebalance_loop x l v) as [u v'|e v']
  end; simpl in *; [|exact L].
  eapply trades_trans; [exact L|apply trades_cash].
Qed.

Lemma liquidate_loop_trades (required desired : Q) (sorted_assets : list (string * Q)) :
  forall v, trades v (vault_after (liquidate_loop required desired sorted_assets v)).
Proof.
  induction sorted_assets as [|[asset lv] rest IH]; intro v; simpl.
  - apply trades_refl.
  - destruct (Qle_bool required (cash v)); [apply trades_refl|].
    destruct (Qeq_bool (sget_default (assets v) asset 0) 0) eqn:Hz; [apply IH|].
    destruct (sget_default_nonzero _ _ Hz) as (h & Eh & Dh & _).
    destruct (Qeq_bool (sget_default (prices v) asset 0) 0); [apply trades_refl|].
    destruct (Qltb _ desired).
    + eapply trades_trans; [|apply IH].
      pose proof (trades_step v asset h 0
                    (dadd (cash v)
                       (dmul (sget_default (assets v) asset 0)
                             (sget_default (prices v) asset 0)))
                    Eh) as S.
      exact S.
    + rewrite Eh.
      eapply trades_trans; [|apply IH].
      apply (trades_step v asset h _ _ Eh).
Qed.

Lemma liquidate_trades (v : Vault) : trades v (vault_after (liquidate v)).
Proof.
  unfold liquidate.
  destruct (is_liquidable v) as [[|]|e]; try apply trades_refl.
  destruct (get_total_value v) as [tv|e]; [|apply trades_refl].
  match goal with
  | |- context [liquidate_loop ?r ?d ?l v] =>
      pose proof (liquidate_loop_trades r d l v) as L;
      destruct (liquidate_loop r d l v) as [u v'|e v']
  end; simpl in *; [|exact L].
  destruct (get_total_value v'); exact L.
Qed.

Lemma rebalance_registry (v : Vault) : same_registry v (vault_after (rebalance v)).
Proof. exact (proj1 (rebalance_trades v)). Qed.

Lemma liquidate_registry (v : Vault) : same_registry v (vault_after (liquidate v)).
Proof. exact (proj1 (liquidate_trades v)). Qed.

Lemma rebalance_same_keys (v : Vault) : same_keys v (vault_after (rebalance v)).
Proof. exact (proj1 (proj2 (rebalance_trades v))). Qed.

Lemma liquidate_same_keys (v : Vault) : same_keys v (vault_after (liquidate v)).
Proof. exact (proj1 (proj2 (liquidate_trades v))). Qed.

Lemma rebalance_books (v : Vault) : same_books v (vault_after (rebalance v)).
Proof. exact (proj2 (proj2 (rebalance_trades v))). Qed.

Lemma liquidate_books (v : Vault) : same_books v (vault_after (liquidate v)).
Proof. exact (proj2 (proj2 (liquidate_trades v))). Qed.

Lemma liquidate_asset_keeps_vault (asset : string) (amount : Q) (v : Vault) :
  vault_after (liquidate_asset asset amount v) = v.
Proof.
  destruct (liquidate_asset_never_returns asset amount v) as [e E].
  rewrite E. reflexivity.
Qed.

(** ** The numbers a vault stores *)










(** ** Protocol-driven liquidation of a reachable vault *)


Ltac dict_facts :=
  let a := fresh "a" in
  let x := fresh "x" in
  let E := fresh "E" in
  intros a x E; vm_compute in E;
  repeat match type of E with
         | (if ?b then _ else _) = _ => destruct b
         end;
  inversion E; subst; vm_compute; congruence.

Lemma reachable_run_all (allowed : call -> Prop) (calls : list call) :
  Forall allowed calls ->
  forall v0 v, reachable allowed v0 v -> reachable allowed v0 (run_all calls v).
Proof.
  unfold run_all. induction calls as [|c calls IH]; intros F v0 v R; simpl.
  - exact R.
  - inversion F as [|? ? Hc Hcalls]. subst.
    apply IH; [exact Hcalls|]. apply reachable_step; assumption.
Qed.

Lemma scenario3_calls :
  scenario3 = run_all scenario_calls (new_vault "Base" (2 # 10) (5 # 100) 100).
Proof. vm_compute. reflexivity. Qed.

Lemma scenario3_reachable_any :
  reachable any_call (new_vault "Base" (2 # 10) (5 # 100) 100) scenario3.
Proof.
  rewrite scenario3_calls. apply reachable_run_all; [|apply reachable_init].
  repeat constructor.
Defined.




(** With X priced at -1/2 and Y at 0: X is sold for -20, which takes cash
    from 1 to -19, and the call then raises on the price of Y. *)
Example liquidate_negative_price_lowers_cash :
  0 <= cash mispriced2 /\ cash (vault_after (liquidate mispriced2)) < 0.
Proof. vm_compute. split; [discriminate|reflexivity]. Qed.

(** ** Total value *)

Lemma get_asset_value_nonneg (v : Vault) (a : string) (x : Q) :
  holdings_nonneg v -> prices_nonneg v ->
  get_asset_value v a = Ok x -> 0 <= x.
Proof.
  intros Hh Hp. unfold get_asset_value.
  destruct (sget (assets v) a) as [h|] eqn:Eh; [|discriminate].
  destruct (sget (prices v) a) as [p|] eqn:Ep; [|discriminate].
  intro E. inversion E. apply dmul_nonneg; [exact (Hp a p Ep)|exact (Hh a h Eh)].
Qed.

Lemma assets_value_loop_nonneg (v : Vault) (todo : list string) :
  holdings_nonneg v -> prices_nonneg v ->
  forall total r, 0 <= total -> assets_value_loop v todo total = Ok r -> 0 <= r.
Proof.
  intros Hh Hp. induction todo as [|key rest IH]; intros total r T; simpl.
  - intro E. inversion E. subst. exact T.
  - destruct (get_asset_value v key) as [x|e] eqn:Ex; simpl; [|discriminate].
    apply IH. apply dadd_nonneg; [exact T|].
    exact (get_asset_value_nonneg v key x Hh Hp Ex).
Qed.

(** The value of the assets has at most 28 digits. *)
Lemma assets_value_loop_rounded (v : Vault) (todo : list string) :
  forall total r, rounded total -> assets_value_loop v todo total = Ok r -> rounded r.
Proof.
  induction todo as [|key rest IH]; intros total r T; simpl.
  - intro E. inversion E. subst. exact T.
  - destruct (get_asset_value v key) as [x|e]; simpl; [|discriminate].
    apply IH. apply rounded_round.
Qed.

Lemma get_assets_value_rounded (v : Vault) (a : Q) :
  get_assets_value v = Ok a -> rounded a.
Proof. apply assets_value_loop_rounded. exact rounded_0. Qed.



(** ** Rebalancing *)





(** ** The invariant of the data model *)













(** A registered asset priced at -1/2 by [set_asset_price]: the code does
    not check the price. *)
Example negative_price_reachable :
  sget (prices (run (SetAssetPrice 1004 "X" (- (1 # 2))) scenario0)) "X" = Some (- (1 # 2)).
Proof. vm_compute. reflexivity. Qed.

(** ** The effect of a rebalance *)

(** [rebalance] is a no-op when the cash ratio is at or below the optimal
    cash threshold. *)
Lemma rebalance_noop (v : Vault) (tv : Q) :
  get_total_value v = Ok tv ->
  cash_ratio v tv <= optimal_cash_threshold v ->
  rebalance v = Return tt v.
Proof.
  intros T R. unfold rebalance.
  rewrite (get_current_cash_threshold_ratio v tv T).
  apply Qle_bool_iff in R. rewrite R. reflexivity.
Qed.

(** The rebalance of the scenario: one asset at price 1, 10000 in cash and
    an optimal threshold of 0.2. *)
Example rebalance_triggered_scenario :
  exists v', rebalance scenario1 = Return tt v' /\
    cash v' == 2000 /\
    (exists h, sget (assets v') "X" = Some h /\ h == 8000) /\
    (exists tv', get_total_value v' = Ok tv' /\ tv' == 10000).
Proof.
  eexists. split; [vm_compute; reflexivity|].
  split; [vm_compute; reflexivity|]. split.
  - eexists. split; vm_compute; reflexivity.
  - eexists. split; vm_compute; reflexivity.
Qed.

(** One asset at price 3 and 0.5 in cash: the quantity bought, 0.4 / 3, is
    rounded, and the total value goes from 0.5 to 0.49...9. *)
Example rebalance_rounds_quantity :
  let v := vault_after (mint 1001 0.5
             (vault_after (add_supported_asset 1000 "X" 1 3 (1 # 2)
                (new_vault "Base" (2 # 10) (5 # 100) 100)))) in
  get_total_value v = Ok (1 # 2) /\
  get_total_value (vault_after (rebalance v)) = Ok 0.4999999999999999999999999999.
Proof. vm_compute. split; reflexivity. Qed.

(** C2, on a vault with 10000 in cash and no registered asset (optimal cash
    threshold 0.2): the cash ratio is 1, the excess cash is 8000, the loop has
    nothing to buy, and cash is then cut by 8000: the total value goes from
    10000 to 2000. *)
Theorem rebalance_without_assets :
  assets cash_only = [] /\
  get_total_value cash_only = Ok 10000 /\
  optimal_cash_threshold cash_only < cash_ratio cash_only 10000 /\
  exists v', rebalance cash_only = Return tt v' /\
    cash v' == cash cash_only - 8000 /\
    exists tv', get_total_value v' = Ok tv' /\ tv' == 2000 /\ ~ tv' == 10000.
Proof.
  split; [vm_compute; reflexivity|]. split; [vm_compute; reflexivity|].
  split; [vm_compute; reflexivity|].
  eexists. split; [vm_compute; reflexivity|]. split; [vm_compute; reflexivity|].
  eexists. split; [vm_compute; reflexivity|]. split; [vm_compute; reflexivity|].
  intro H. vm_compute in H. discriminate H.
Qed.

(** * Further properties *)

(** ** Registering assets *)

(** X1. [add_supported_asset] checks the name first and the threshold
    second: a registered name raises "Name already present" whatever the
    threshold, a new name with a threshold above 100 raises "Invalid
    threshold", and both leave the vault as it was.  Otherwise the asset is
    appended to the registry with holdings 0, its price, threshold and
    liquidity value are stored as given (no check of their sign), its history
    is the single observation [(now, price)], and cash and the token supply
    are untouched. *)
Theorem add_supported_asset_spec (now : Q) (nm : string) (lv p th : Q) (v : Vault) :
  (smem (assets v) nm = true ->
   add_supported_asset now nm lv p th v = Raise (ValueError "Name already present") v) /\
  (smem (assets v) nm = false -> 100 < th ->
   add_supported_asset now nm lv p th v = Raise (ValueError "Invalid threshold") v) /\
  (smem (assets v) nm = false -> th <= 100 ->
   exists v', add_supported_asset now nm lv p th v = Return tt v' /\
     assets v' = assets v ++ [(nm, 0)] /\
     sget (prices v') nm = Some p /\
     sget (thresholds v') nm = Some th /\
     sget (asset_liquidity_value v') nm = Some lv /\
     sget (price_volatility v') nm = Some [mkPriceObservation now p] /\
     cash v' = cash v /\
     token_supply v' = token_supply v).
Proof.
  unfold add_supported_asset. split; [|split].
  - intro M. rewrite M. reflexivity.
  - intros M T. rewrite M. apply Qltb_lt in T. rewrite T. reflexivity.
  - intros M T. rewrite M. apply Qltb_ge in T. rewrite T.
    eexists. split; [reflexivity|]. simpl.
    split; [apply (dict_set_absent String.eqb); apply smem_false_sget; exact M|].
    repeat split; apply sget_set_same.
Qed.

Lemma add_supported_asset_spec_witness :
  exists v', add_supported_asset 1000 "Y" 2 3410 (1 # 2) scenario3 = Return tt v' /\
    assets v' = assets scenario3 ++ [("Y", 0)] /\
    sget (prices v') "Y" = Some 3410 /\
    sget (thresholds v') "Y" = Some (1 # 2) /\
    sget (asset_liquidity_value v') "Y" = Some 2 /\
    sget (price_volatility v') "Y" = Some [mkPriceObservation 1000 3410] /\
    cash v' = cash scenario3 /\
    token_supply v' = token_supply scenario3.
Proof.
  apply (proj2 (proj2 (add_supported_asset_spec 1000 "Y" 2 3410 (1 # 2) scenario3))).
  - reflexivity.
  - vm_compute. discriminate.
Defined.

Lemma run_keeps_registered (c : call) (v : Vault) (a : string) :
  sget (assets v) a <> None -> sget (assets (run c v)) a <> None.
Proof.
  intro H. destruct c; simpl.
  - exact H.
  - unfold redeem. destruct (Qltb (cash v) amount); exact H.
  - unfold add_supported_asset.
    destruct (smem (assets v) nm); [exact H|].
    destruct (Qltb 100 threshold); [exact H|].
    simpl. rewrite sget_set. destruct (String.eqb nm a); [discriminate|exact H].
  - unfold change_asset_threshold.
    destruct (negb (smem (assets v) asset)); [exact H|].
    destruct (Qltb 100 threshold); exact H.
  - exact H.
  - exact H.
  - intro N. apply H. apply (proj2 (rebalance_registry v)). exact N.
  - intro N. apply H. apply (proj2 (liquidate_registry v)). exact N.
  - rewrite liquidate_asset_keeps_vault. exact H.
Qed.

(** X2. No call removes an asset: a name registered in a vault is registered
    in every vault reached from it, whatever the calls, and registering it
    again always raises "Name already present" and changes nothing. *)
Theorem registered_names_stay (v0 v : Vault) (nm : string) :
  reachable any_call v0 v ->
  smem (assets v0) nm = true ->
  smem (assets v) nm = true /\
  forall now lv p th,
    add_supported_asset now nm lv p th v = Raise (ValueError "Name already present") v.
Proof.
  intros R M.
  assert (H : smem (assets v) nm = true).
  { induction R as [|v c R IH _]; [exact M|].
    apply smem_true_sget. apply run_keeps_registered.
    apply smem_true_sget. exact IH. }
  split; [exact H|].
  intros now lv p th. unfold add_supported_asset. rewrite H. reflexivity.
Qed.

Lemma scenario3_from_scenario0 : scenario3 = run_all (tl scenario_calls) scenario0.
Proof. vm_compute. reflexivity. Qed.

Lemma scenario3_reachable_from_scenario0 : reachable any_call scenario0 scenario3.
Proof.
  rewrite scenario3_from_scenario0. apply reachable_run_all; [|apply reachable_init].
  repeat constructor.
Defined.

Lemma registered_names_stay_witness :
  smem (assets scenario3) "X" = true /\
  forall now lv p th,
    add_supported_asset now "X" lv p th scenario3 =
    Raise (ValueError "Name already present") scenario3.
Proof.
  apply (registered_names_stay scenario0 scenario3 "X").
  - exact scenario3_reachable_from_scenario0.
  - vm_compute. reflexivity.
Defined.

(** ** Values *)

Lemma assets_value_loop_ext (v v' : Vault) (todo : list string) :
  (forall k, In k todo -> get_asset_value v' k = get_asset_value v k) ->
  forall total, assets_value_loop v' todo total = assets_value_loop v todo total.
Proof.
  induction todo as [|k rest IH]; intros H total; simpl; [reflexivity|].
  rewrite (H k (or_introl eq_refl)).
  destruct (get_asset_value v k); simpl; [|reflexivity].
  apply IH. intros k' I. apply H. right. exact I.
Qed.

Lemma assets_value_loop_app (v : Vault) (l1 l2 : list string) (total : Q) :
  assets_value_loop v (l1 ++ l2) total =
  (r <- assets_value_loop v l1 total ;; assets_value_loop v l2 r).
Proof.
  revert total. induction l1 as [|k rest IH]; intro total; simpl; [reflexivity|].
  destruct (get_asset_value v k); simpl; [apply IH|reflexivity].
Qed.

(** X3. Registering an asset does not change the total value of the vault:
    when the total value is defined before [add_supported_asset], it is
    defined after it, on either exit, and it is the same number. *)
Theorem add_supported_asset_keeps_total_value (now : Q) (nm : string) (lv p th : Q)
    (v : Vault) (tv : Q) :
  get_total_value v = Ok tv ->
  exists tv',
    get_total_value (vault_after (add_supported_asset now nm lv p th v)) = Ok tv' /\
    tv' == tv.
Proof.
  intro T. unfold add_supported_asset.
  destruct (smem (assets v) nm) eqn:M; [exists tv; split; [exact T|reflexivity]|].
  destruct (Qltb 100 th); [exists tv; split; [exact T|reflexivity]|].
  apply smem_false_sget in M.
  unfold get_total_value, get_assets_value in T |- *. cbn [vault_after].
  destruct (assets_value_loop v (dict_keys (assets v)) 0) as [a|e] eqn:Ea;
    cbn [bind] in T; [|discriminate].
  apply Ok_inj in T. subst tv.
  pose proof (assets_value_loop_rounded v _ 0 a rounded_0 Ea) as Ra.
  cbn [assets upd_assets upd_asset_liquidity_value upd_price_volatility upd_prices
       upd_thresholds cash].
  rewrite (dict_keys_sset_absent _ _ _ _ M), assets_value_loop_app.
  rewrite assets_value_loop_ext with (v := v).
  - rewrite Ea. cbn [bind assets_value_loop]. unfold get_asset_value.
    cbn [assets upd_assets upd_asset_liquidity_value upd_price_volatility upd_prices
         upd_thresholds prices].
    rewrite !sget_set_same. cbn [bind].
    eexists. split; [reflexivity|].
    rewrite (dmul_0_r p 0) by reflexivity.
    assert (E : dadd (dadd a 0) (cash v) = dadd a (cash v)).
    { apply round_sig_comp. rewrite (dadd_0_r a Ra). reflexivity. }
    rewrite E. reflexivity.
  - intros k I. unfold get_asset_value.
    cbn [assets upd_assets upd_asset_liquidity_value upd_price_volatility upd_prices
         upd_thresholds prices].
    assert (N : nm <> k).
    { intro E. subst k. apply (proj1 (sget_None_iff _ _ _) M). exact I. }
    rewrite !sget_set_other by exact N. reflexivity.
Qed.

Lemma add_supported_asset_keeps_total_value_witness :
  exists tv',
    get_total_value (vault_after (add_supported_asset 1000 "Y" 2 3410 (1 # 2) scenario3))
      = Ok tv' /\
    tv' == 8200.
Proof.
  apply (add_supported_asset_keeps_total_value 1000 "Y" 2 3410 (1 # 2) scenario3 8200).
  vm_compute. reflexivity.
Defined.











(** The rounding of a quotient that exceeds 1 by at most half a unit in
    the 28th digit is 1. *)
Lemma round_quotient_one (x : Q) :
  x <= 1 + 1 / (2 * 10 ^ (28 - 1)) -> round_sig 28 x <= 1.
Proof.
  intro H.
  apply Qle_trans with (round_sig 28 (1 + 1 / (2 * 10 ^ (28 - 1)))).
  - apply round_sig_mono; [exact prec_pos|exact H].
  - vm_compute. discriminate.
Qed.

(** X6. When cash, holdings and prices are not negative, the cash ratio that
    [get_current_cash_threshold] returns lies between 0 and 1. *)
Theorem get_current_cash_threshold_bounds (v : Vault) (r : Q) :
  0 <= cash v -> holdings_nonneg v -> prices_nonneg v ->
  get_current_cash_threshold v = Ok r ->
  0 <= r /\ r <= 1.
Proof.
  intros C Hh Hp. unfold get_current_cash_threshold, get_total_value.
  destruct (get_assets_value v) as [a|e] eqn:Ea; cbn [bind]; [|discriminate].
  assert (A : 0 <= a).
  { unfold get_assets_value in Ea.
    exact (assets_value_loop_nonneg v _ Hh Hp 0 a (Qle_refl 0) Ea). }
  destruct (Qeq_bool (dadd a (cash v)) 0) eqn:Z; intro E; apply Ok_inj in E; subst r.
  - split; [apply Qle_refl|discriminate].
  - apply Qeq_bool_false in Z.
    assert (S : 0 < a + cash v).
    { apply Qlt_leneq. split; [lra|]. intro H. apply Z.
      unfold dadd. rewrite (round_sig_zero_eq 28 (a + cash v)); [reflexivity|].
      symmetry. exact H. }
    assert (T : 0 < dadd a (cash v)) by (apply round_sig_pos; [exact prec_pos|exact S]).
    split.
    + apply ddiv_nonneg; [exact C|apply Qlt_le_weak; exact T].
    + apply round_quotient_one.
      apply Qle_trans with ((a + cash v) / dadd a (cash v)).
      * apply Qmult_le_compat_r; [lra|].
        apply Qlt_le_weak. apply Qinv_lt_0_compat. exact T.
      * unfold dadd. rewrite (round_sig_pos_eq 28 _ S).
        apply round_pos_quotient; [exact prec_pos|exact S].
Qed.

Lemma get_current_cash_threshold_bounds_witness :
  0 <= scenario3_ratio /\ scenario3_ratio <= 1.
Proof.
  apply (get_current_cash_threshold_bounds scenario3).
  - vm_compute. discriminate.
  - unfold holdings_nonneg. dict_facts.
  - unfold prices_nonneg. dict_facts.
  - vm_compute. reflexivity.
Defined.

(** ** What rebalancing and liquidation leave alone, again *)

(** X7. [rebalance] and [liquidate] touch cash and holdings only: on either
    exit the token supply, the prices, the thresholds, the liquidity values,
    the window, both flow logs and the price histories are the ones of the
    vault they were called on, and the registered names are the same, in the
    same order. *)
Theorem rebalance_liquidate_frame (v : Vault) :
  same_books v (vault_after (rebalance v)) /\
  same_books v (vault_after (liquidate v)) /\
  dict_keys (assets (vault_after (rebalance v))) = dict_keys (assets v) /\
  dict_keys (assets (vault_after (liquidate v))) = dict_keys (assets v).
Proof.
  split; [apply rebalance_books|]. split; [apply liquidate_books|].
  split; [exact (proj1 (rebalance_same_keys v))|exact (proj1 (liquidate_same_keys v))].
Qed.

(** ** Rebalancing, again *)











(** In that vault X ends with 40 units bought and cash is still 100; with
    three assets the share of 80 is 26.66666666666666666666666667. *)
Example rebalance_not_atomic_values :
  let v' := vault_after (rebalance zero_priced) in
  let w' := vault_after (rebalance zero_priced3) in
  cash v' == 100 /\
  (exists h, sget (assets v') "X" = Some h /\ h == 40) /\
  cash w' == 100 /\
  sget (assets w') "X" = Some 26.66666666666666666666666667 /\
  sget (assets w') "Y" = Some 26.66666666666666666666666667 /\
  sget (assets w') "Z" = Some 0.
Proof.
  vm_compute. split; [reflexivity|]. split; [eexists; split; reflexivity|].
  repeat split.
Qed.

(** ** Minting, redeeming and the flow rates *)



(** An amount of 30 digits: the vault stores 1, and refuses to redeem the
    amount it has just taken. *)
Example mint_then_redeem_refused :
  let amount := 1.00000000000000000000000000001 in
  let v := vault_after (mint 1001 amount (new_vault "Base" (2 # 10) (5 # 100) 100)) in
  cash v == 1 /\ redeem 1002 amount v = Raise InsufficientCash v.
Proof. vm_compute. split; reflexivity. Qed.




(** The rounded start of the window is not after the current time when the
    current time has at most 28 digits. *)
Lemma window_start_before (now win : Q) :
  rounded now -> 0 <= win -> round_sig 28 (now - win) <= now.
Proof. intros R W. apply round_le_rounded; [exact R|lra]. Qed.






(** The rates of the scenario before and after a withdrawal of 50: 18 and
    18.5. *)
Example redeem_raises_outflow_values :
  get_outflow 1003 scenario3 = Ok 18 /\
  get_outflow 1003 (vault_after (redeem 1003 50 scenario3)) = Ok (37 # 2).
Proof. vm_compute. split; reflexivity. Qed.

(** ** Volatility in reachable vaults *)

Lemma single_observations_set (d : list (string * list PriceObservation)) (a : string)
    (o : PriceObservation) :
  (forall k h, sget d k = Some h -> length h = 1%nat) ->
  forall k h, sget (sset d a (deque_append 1000 [] o)) k = Some h -> length h = 1%nat.
Proof.
  intros H k h. rewrite sget_set.
  destruct (String.eqb a k); [|apply H].
  intro E. inversion E. reflexivity.
Qed.

Lemma run_keeps_single_observations (c : call) (v : Vault) :
  single_observations v -> single_observations (run c v).
Proof.
  intro H. destruct c; simpl.
  - exact H.
  - unfold redeem. destruct (Qltb (cash v) amount); exact H.
  - unfold add_supported_asset.
    destruct (smem (assets v) nm); [exact H|].
    destruct (Qltb 100 threshold); [exact H|].
    unfold single_observations. simpl. apply single_observations_set. exact H.
  - unfold change_asset_threshold.
    destruct (negb (smem (assets v) asset)); [exact H|].
    destruct (Qltb 100 threshold); exact H.
  - unfold single_observations. simpl. apply single_observations_set. exact H.
  - exact H.
  - destruct (rebalance_books v) as (_ & _ & _ & _ & _ & _ & _ & _ & _ & E & _).
    unfold single_observations. rewrite E. exact H.
  - destruct (liquidate_books v) as (_ & _ & _ & _ & _ & _ & _ & _ & _ & E & _).
    unfold single_observations. rewrite E. exact H.
  - rewrite liquidate_asset_keeps_vault. exact H.
Qed.

(** X16. No call ever appends to a price history: [add_supported_asset]
    and [set_asset_price] both start a new one.  So in every vault reached
    from a new one every history holds one observation, and
    [get_price_volatility] returns 0 for every asset that has a history, at
    every time and for every window. *)
Theorem volatility_zero_reachable (dsqrt : Q -> Q) (nm : string) (opt trig win : Q)
    (v : Vault) (now : Q) (asset : string) (history : list PriceObservation) :
  reachable any_call (new_vault nm opt trig win) v ->
  sget (price_volatility v) asset = Some history ->
  length history = 1%nat /\
  get_price_volatility dsqrt now v asset = Ok 0.
Proof.
  intro R.
  assert (S : single_observations v).
  { induction R as [|v c R IH _].
    - intros a h F. discriminate F.
    - apply run_keeps_single_observations. exact IH. }
  intro E.
  pose proof (S asset history E) as L. split; [exact L|].
  unfold get_price_volatility. rewrite E.
  destruct history as [|o [|o' rest]]; try discriminate L.
  cbn [relevant_prices_loop].
  destruct (Qle_bool (dsub now (window v)) (timestamp o)); reflexivity.
Qed.

Lemma scenario3_history :
  sget (price_volatility scenario3) "X" = Some [mkPriceObservation 1000 1].
Proof. vm_compute. reflexivity. Qed.

Lemma volatility_zero_reachable_witness :
  length [mkPriceObservation 1000 1] = 1%nat /\
  get_price_volatility decimal_sqrt 1003 scenario3 "X" = Ok 0.
Proof.
  apply (volatility_zero_reachable decimal_sqrt "Base" (2 # 10) (5 # 100) 100 scenario3 1003 "X").
  - exact scenario3_reachable_any.
  - exact scenario3_history.
Defined.

(** ** Swing pricing, again *)

(** X17. Whatever the square root and the exponential, a fee that
    [swing_pricing] returns lies between 0 and 1. *)
Theorem swing_pricing_fee_range (dsqrt : Q -> Q) (dexp : Q -> option Q)
    (now_flow now_vol : Q) (v : Vault) (asset : string) (inflow : bool) (fee : Q) :
  swing_pricing dsqrt dexp now_flow now_vol v asset inflow = Ok fee ->
  0 <= fee /\ fee <= 1.
Proof.
  exact (swing_pricing_bounds dsqrt dexp now_flow now_vol v asset inflow fee).
Qed.

Lemma swing_pricing_fee_range_witness :
  0 <= scenario3_fee /\ scenario3_fee <= 1.
Proof.
  apply (swing_pricing_fee_range decimal_sqrt exp_order2 1003 1003 scenario3 "X" false).
  vm_compute. reflexivity.
Defined.

(** X18. With no flow in the window the fee is 0: when the flow getter
    returns 0, [swing_pricing] returns 0 if it returns, whatever the
    volatility and the deviation from the threshold. *)
Theorem swing_pricing_no_flow (dsqrt : Q -> Q) (dexp : Q -> option Q)
    (now_flow now_vol : Q) (v : Vault) (asset : string) (inflow : bool) (flow fee : Q) :
  (if inflow then get_inflow now_flow v else get_outflow now_flow v) = Ok flow ->
  flow == 0 ->
  swing_pricing dsqrt dexp now_flow now_vol v asset inflow = Ok fee ->
  fee = 0.
Proof.
  intros F Z. unfold swing_pricing. rewrite F. cbn [bind].
  destruct (get_price_volatility dsqrt now_vol v asset) as [vol|e]; cbn [bind]; [|discriminate].
  destruct (get_current_asset_threshold v asset) as [threshold|e]; cbn [bind]; [|discriminate].
  rewrite (dmul_0_l flow _ Z).
  destruct (dexp _) as [ex|]; [|discriminate].
  match goal with
  | |- context [dmul (dmul ?a 0) ?k] =>
      assert (FZ : dmul (dmul a 0) k = 0)
        by (apply dmul_0_l; rewrite (dmul_0_r a 0); reflexivity);
      rewrite FZ
  end.
  intro H. apply Ok_inj in H. rewrite <- H. reflexivity.
Qed.

Lemma swing_pricing_no_flow_witness :
  swing_pricing decimal_sqrt exp_order2 1003 1003 scenario0 "X" true = Ok 0 /\ 0 = 0.
Proof.
  split; [vm_compute; reflexivity|].
  apply (swing_pricing_no_flow decimal_sqrt exp_order2 1003 1003 scenario0 "X" true 0 0).
  - vm_compute. reflexivity.
  - reflexivity.
  - vm_compute. reflexivity.
Defined.



(** When [math.exp] overflows, [swing_pricing] raises [OverflowError]. *)
Example swing_pricing_overflow :
  swing_pricing decimal_sqrt exp_overflow 1003 1003 scenario3 "X" false =
  Err (OverflowError "math range error").
Proof. vm_compute. reflexivity. Qed.

(** ** Thresholds *)

(** X20. The deviation that [get_current_asset_threshold] returns is never
    negative; it raises "Invalid asset" for a name without a threshold; and
    when the registered assets are worth nothing it is 0 for every name that
    has a threshold. *)
Theorem get_current_asset_threshold_spec (v : Vault) (asset : string) :
  (forall d, get_current_asset_threshold v asset = Ok d -> 0 <= d) /\
  (sget (thresholds v) asset = None ->
   get_current_asset_threshold v asset = Err (ValueError "Invalid asset")) /\
  (forall th av, sget (thresholds v) asset = Some th ->
     get_assets_value v = Ok av -> av == 0 ->
     get_current_asset_threshold v asset = Ok 0).
Proof.
  unfold get_current_asset_threshold. split; [|split].
  - intro d. destruct (sget (thresholds v) asset) as [th|]; [|discriminate].
    destruct (get_assets_value v) as [av|e]; cbn [bind]; [|discriminate].
    destruct (Qeq_bool av 0); [intro E; apply Ok_inj in E; rewrite <- E; apply Qle_refl|].
    destruct (get_asset_value v asset) as [x|e]; cbn [bind]; [|discriminate].
    destruct (Qeq_bool x 0); intro E; apply Ok_inj in E; rewrite <- E;
      [apply Qle_refl|apply dabs_nonneg].
  - intro H. rewrite H. reflexivity.
  - intros th av H A Z. rewrite H, A. cbn [bind].
    apply Qeq_bool_iff in Z. rewrite Z. reflexivity.
Qed.

Lemma get_current_asset_threshold_spec_witness :
  get_current_asset_threshold scenario3 "DOGE" = Err (ValueError "Invalid asset") /\
  get_current_asset_threshold scenario0 "X" = Ok 0.
Proof.
  split.
  - apply (proj1 (proj2 (get_current_asset_threshold_spec scenario3 "DOGE"))).
    vm_compute. reflexivity.
  - apply (proj2 (proj2 (get_current_asset_threshold_spec scenario0 "X")) (1 # 2) 0);
      vm_compute; reflexivity.
Defined.

(** X21. [change_asset_threshold] raises "Asset not present" for an
    unregistered name, whatever the threshold, and "Invalid threshold" for a
    registered name and a threshold above 100, and leaves the vault as it
    was.  Otherwise it returns, cash, holdings and prices are untouched, and
    the deviation read back by [get_current_asset_threshold] is measured
    from the new threshold: |threshold - asset value / assets value| with the
    quotient and the difference each rounded to 28 digits, or 0 when either
    value is 0. *)
Theorem change_asset_threshold_spec (asset : string) (th : Q) (v : Vault) :
  (smem (assets v) asset = false ->
   change_asset_threshold asset th v = Raise (ValueError "Asset not present") v) /\
  (smem (assets v) asset = true -> 100 < th ->
   change_asset_threshold asset th v = Raise (ValueError "Invalid threshold") v) /\
  (smem (assets v) asset = true -> th <= 100 ->
   exists v', change_asset_threshold asset th v = Return tt v' /\
     cash v' = cash v /\ assets v' = assets v /\ prices v' = prices v /\
     forall av x, get_assets_value v = Ok av -> get_asset_value v asset = Ok x ->
       get_current_asset_threshold v' asset =
       Ok (if Qeq_bool av 0 then 0
           else if Qeq_bool x 0 then 0
           else round_sig 28 (Qabs (round_sig 28 (th - round_sig 28 (x / av)))))).
Proof.
  unfold change_asset_threshold. split; [|split].
  - intro M. rewrite M. reflexivity.
  - intros M T. rewrite M. apply Qltb_lt in T. rewrite T. reflexivity.
  - intros M T. rewrite M. apply Qltb_ge in T. rewrite T. cbn [negb].
    set (v' := upd_thresholds v (sset (thresholds v) asset th)).
    exists v'. split; [reflexivity|].
    split; [reflexivity|]. split; [reflexivity|]. split; [reflexivity|].
    intros av x A X. unfold get_current_asset_threshold.
    assert (T' : sget (thresholds v') asset = Some th) by apply sget_set_same.
    assert (GA : get_assets_value v' = get_assets_value v).
    { unfold get_assets_value. apply assets_value_loop_ext. reflexivity. }
    assert (GX : get_asset_value v' asset = get_asset_value v asset) by reflexivity.
    rewrite T', GA, GX, A, X. cbn [bind].
    destruct (Qeq_bool av 0); [reflexivity|].
    destruct (Qeq_bool x 0); reflexivity.
Qed.

Lemma change_asset_threshold_spec_witness :
  exists v', change_asset_threshold "X" (3 # 10) scenario3 = Return tt v' /\
    cash v' = cash scenario3 /\ assets v' = assets scenario3 /\
    prices v' = prices scenario3 /\
    forall av x, get_assets_value scenario3 = Ok av ->
      get_asset_value scenario3 "X" = Ok x ->
      get_current_asset_threshold v' "X" =
      Ok (if Qeq_bool av 0 then 0
          else if Qeq_bool x 0 then 0
          else round_sig 28 (Qabs (round_sig 28 ((3 # 10) - round_sig 28 (x / av))))).
Proof.
  apply (proj2 (proj2 (change_asset_threshold_spec "X" (3 # 10) scenario3))).
  - vm_compute. reflexivity.
  - vm_compute. discriminate.
Defined.

(** Two assets worth 4 and 8: with a threshold of 0.5 the deviation of the
    first is |0.5 - 0.3333333333333333333333333333|. *)
Example change_asset_threshold_rounds :
  let v := vault_after (set_asset_price 1003 "B" 2
             (vault_after (rebalance (vault_after (mint 1001 10
               (vault_after (add_supported_asset 1000 "B" 2 1 (1 # 2)
                 (vault_after (add_supported_asset 1000 "A" 1 1 (1 # 2)
                   (new_vault "Base" (2 # 10) (5 # 100) 100)))))))))) in
  get_current_asset_threshold (vault_after (change_asset_threshold "A" (1 # 2) v)) "A" =
  Ok 0.1666666666666666666666666667.
Proof. vm_compute. reflexivity. Qed.

(** ** The users of the simulation *)



(** A user with 99999999999999999999999999.99 in cash mints 1.001: the
    user's cash is rounded, and cash plus tokens is no longer what it was. *)
Example user_mint_rounds :
  let u := mkUser "ann" 99999999999999999999999999.99 0 in
  match act MINT 1003 1.001 u scenario3 with
  | Done u' _ => ~ user_cash u' + usdb u' == user_cash u + usdb u
  | Failed _ _ _ => False
  end.
Proof. vm_compute. discriminate. Qed.

(** ** The order of liquidation *)







(** In the scenario 1440 X are sold, and 6560 are left. *)
Example liquidate_sells_lowest_first_values :
  sget (assets (vault_after (liquidate scenario3))) "X" = Some 6560.
Proof. vm_compute. reflexivity. Qed.

(** ** Amounts of either sign *)


